(** * PageRank iteration engine: loops and drivers of [pagerankBasic.hxx]

    A shallow embedding of the convergence loop (single-worker and
    multi-worker), of the static and traversal-based dynamic drivers, and
    the properties of the iteration count, the stopping rule, the buffer
    exchange and the affected-vertex predicate. *)

From Equations Require Import Equations.
From stdpp Require Import base option list functions.
From Stdlib Require Import ZArith Lia.
From Stdlib Require Import Floats.PrimFloat.

Local Open Scope Z_scope.

(** ** Data model *)

(** Vertex keys, dense positions and vertex counts (template parameter [K],
    assumed wide enough for the graph at hand). *)
Definition K := nat.

(** The rank type [V] (template parameter: [float] or [double]) with the
    arithmetic the loop itself performs: the literal [1], [-], [/], the
    comparison [el < E] and the conversion of a vertex count. *)
Class Scalar (V : Type) := {
  Vone : V;
  Vsub : V → V → V;
  Vdiv : V → V → V;
  Vltb : V → V → bool;
  VofK : K → V
}.

(** A worker descriptor ([ThreadInfo]); the loop only reads its failure
    flag. *)
Class Worker (ThreadInfo : Type) := {
  crashed : ThreadInfo → bool
}.

(** The loop takes its rank buffers by reference ([vector<V>&]), and two
    references may name the same vector.  A reference is the identity of a
    vector object; the store gives the contents of each object. *)
Definition ref := nat.

Abbreviation store V := (ref → list V).

(** [swap(a, r)] of two vectors: the contents are exchanged; exchanging a
    vector with itself changes nothing. *)
Definition swap {V : Type} (a r : ref) (h : store V) : store V :=
  <[r := h a]> (<[a := h r]> h).

(** What the loop mutates: the vectors behind [a], [r], [c], and the worker
    descriptors behind [threads]. *)
Record LoopState (V ThreadInfo : Type) := {
  bufs : store V;
  threads : list ThreadInfo
}.
Arguments bufs {V ThreadInfo} _ _.
Arguments threads {V ThreadInfo} _.

(** The services of [pagerank.hxx] the loop calls, which the spec takes as
    pure functions.  Each is a function of the contents of its arguments;
    the one that writes a vector returns its new contents, and the rank
    propagator, which hands the worker descriptor(s) to the per-vertex
    callback [fv], also returns them. *)
Class RankServices (V ThreadInfo FV : Type) := {
  pagerankTeleport : list V → list K → V → K → V;
  pagerankCalculateRanks :
    list V → list V → list nat → list K → V → K → K →
    ThreadInfo → FV → (K → bool) → list V * ThreadInfo;
  multiplyValuesW : list V → list V → list V → K → K → list V;
  pagerankError : list V → list V → Z → K → K → V;
  pagerankTeleportOmp : list V → list K → V → K → V;
  pagerankCalculateRanksOmp :
    list V → list V → list nat → list K → V → K → K →
    list ThreadInfo → FV → (K → bool) → list V * list ThreadInfo;
  multiplyValuesOmpW : list V → list V → list V → K → K → list V;
  pagerankErrorOmp : list V → list V → Z → K → K → V
}.

(** ** The [while (l<L) { ...; ++l; ...; if (..) break; }] skeleton

    [body] runs one iteration and tells whether one of the [break]s fired;
    [None] is an iteration whose behaviour is undefined.  The counters are
    [int]s; [l] stays below [L] before [++l], which therefore does not
    overflow.  The recursion is on [L - l], which [++l] decreases. *)
Section While.
Context {St : Type}.
Variable body : St → option (St * bool).

Equations whileLt (L l : Z) (st : St) : option (Z * St)
  by wf (Z.to_nat (L - l)) lt :=
  whileLt L l st with decide (l < L) := {
    | left _ with body st := {
        | Some (st', true) => Some (l + 1, st')
        | Some (st', false) => whileLt L (l + 1) st'
        | None => None }
    | right _ => Some (l, st) }.
Next Obligation. lia. Qed.

(** The same loop as a big-step relation: [Run L l st l' st'] when the loop
    entered with counter [l] and state [st] leaves with [l'] and [st']. *)
Inductive Run (L : Z) : Z → St → Z → St → Prop :=
| run_exit l st :
    ¬ l < L → Run L l st l st
| run_break l st st' :
    l < L → body st = Some (st', true) → Run L l st (l + 1) st'
| run_continue l st st' l' st'' :
    l < L → body st = Some (st', false) →
    Run L (l + 1) st' l' st'' → Run L l st l' st''.

(** [j] iterations in a row, no exit test in between. *)
Fixpoint iterate (j : nat) (st : St) : option St :=
  match j with
  | O => Some st
  | S j' => it ← body st; iterate j' it.1
  end.

(** Did a [break] fire at the end of iteration [j] (counted from 1)? *)
Definition breakAt (j : nat) (st : St) : option bool :=
  match j with
  | O => None
  | S j' => st' ← iterate j' st; it ← body st'; Some it.2
  end.

End While.

(** ** The iteration loops *)

Inductive Strategy := SingleWorker | MultiWorker.

Section Loop.
Context {V ThreadInfo FV : Type}.
Context `{!Scalar V, !Worker ThreadInfo, !RankServices V ThreadInfo FV}.

Abbreviation State := (LoopState V ThreadInfo).

(** Modelled from the spec: [threadInfosCrashedCount] (declared outside this
    file) is the number of workers whose failure flag is set: step 6 of the
    multi-worker loop stops if any worker's failure flag is set. *)
Definition threadInfosCrashedCount (ts : list ThreadInfo) : Z :=
  Z.of_nat (length (filter (λ t, crashed t = true) ts)).

Section Body.
Variables (s : Strategy) (ASYNC DEAD : bool).
Variables (a r c : ref) (f : list V) (xv : list nat) (xe vdeg : list K).
Variables (N : K) (P E : V) (EF : Z) (i n : K) (fv : FV) (fa : K → bool).

(** [(1-P)/N] *)
Definition plainTeleport : V := Vdiv (Vsub Vone P) (VofK N).

(** Line 45: [C0 = DEAD? pagerankTeleport(r, vdeg, P, N) : (1-P)/N]. *)
Definition seqC0 (st : State) : V :=
  if DEAD then pagerankTeleport (bufs st r) vdeg P N else plainTeleport.

(** Line 46 for a given [C0]: the propagator's new contents of [a] and of
    the descriptor behind [threads[0]].  Reading [threads[0]] of an empty
    vector is undefined. *)
Definition seqPropagate (C0 : V) (st : State) : option (list V * ThreadInfo) :=
  t0 ← threads st !! 0%nat;
  Some (pagerankCalculateRanks (bufs st a) (bufs st c) xv xe C0 i n t0 fv fa).

(** Lines 46-48 for a given [C0]: propagate into [a], rescale into [c],
    measure the error between [a] and [r]. *)
Definition seqUpdateWith (C0 : V) (st : State) : option (State * V) :=
  '(a', t0') ← seqPropagate C0 st;
  let h1 := <[a := a']> (bufs st) in
  let h2 := <[c := multiplyValuesW (h1 c) (h1 a) f i n]> h1 in
  let el := pagerankError (h2 a) (h2 r) EF i n in
  Some ({| bufs := h2; threads := <[0%nat := t0']> (threads st) |}, el).

(** Lines 45-48. *)
Definition seqUpdate (st : State) : option (State * V) :=
  seqUpdateWith (seqC0 st) st.

(** Line 49 (and 66): [if (!ASYNC) swap(a, r)]. *)
Definition exchange (st : State) : State :=
  if ASYNC then st
  else {| bufs := swap a r (bufs st); threads := threads st |}.

(** Lines 45-49: one sweep; the state it leaves and the error [el]. *)
Definition seqIteration (st : State) : option (State * V) :=
  '(st1, el) ← seqUpdate st; Some (exchange st1, el).

(** Line 51: [threads[0]->crashed]. *)
Definition seqCrashed (st : State) : option bool :=
  t0 ← threads st !! 0%nat; Some (crashed t0).

(** Lines 50-51: [if (el<E) break; if (threads[0]->crashed) break;]. *)
Definition seqStop (st : State) (el : V) : option bool :=
  if Vltb el E then Some true else seqCrashed st.

(** Lines 45-51: one pass through the loop body, and whether it left the
    loop by a [break]. *)
Definition seqStep (st : State) : option (State * bool) :=
  '(st', el) ← seqIteration st; b ← seqStop st' el; Some (st', b).

(** Line 62. *)
Definition ompC0 (st : State) : V :=
  if DEAD then pagerankTeleportOmp (bufs st r) vdeg P N else plainTeleport.

(** Line 63 for a given [C0]; the propagator gets all descriptors. *)
Definition ompPropagate (C0 : V) (st : State) : option (list V * list ThreadInfo) :=
  Some (pagerankCalculateRanksOmp (bufs st a) (bufs st c) xv xe C0 i n
          (threads st) fv fa).

(** Lines 63-65 for a given [C0]. *)
Definition ompUpdateWith (C0 : V) (st : State) : option (State * V) :=
  '(a', ts') ← ompPropagate C0 st;
  let h1 := <[a := a']> (bufs st) in
  let h2 := <[c := multiplyValuesOmpW (h1 c) (h1 a) f i n]> h1 in
  let el := pagerankErrorOmp (h2 a) (h2 r) EF i n in
  Some ({| bufs := h2; threads := ts' |}, el).

(** Lines 62-65. *)
Definition ompUpdate (st : State) : option (State * V) :=
  ompUpdateWith (ompC0 st) st.

(** Lines 62-66. *)
Definition ompIteration (st : State) : option (State * V) :=
  '(st1, el) ← ompUpdate st; Some (exchange st1, el).

(** Line 68: [threadInfosCrashedCount(threads) > 0]. *)
Definition ompCrashed (st : State) : option bool :=
  Some (bool_decide (threadInfosCrashedCount (threads st) > 0)).

(** Lines 67-68. *)
Definition ompStop (st : State) (el : V) : option bool :=
  if Vltb el E then Some true else ompCrashed st.

(** Lines 62-68. *)
Definition ompStep (st : State) : option (State * bool) :=
  '(st', el) ← ompIteration st; b ← ompStop st' el; Some (st', b).

(** The two strategies side by side. *)
Definition baseContribution : State → V :=
  match s with SingleWorker => seqC0 | MultiWorker => ompC0 end.

Definition updateWith : V → State → option (State * V) :=
  match s with SingleWorker => seqUpdateWith | MultiWorker => ompUpdateWith end.

(** The rank vector the propagator of an iteration produces (line 46/63). *)
Definition newRanks (st : State) : option (list V) :=
  match s with
  | SingleWorker => fst <$> seqPropagate (seqC0 st) st
  | MultiWorker => fst <$> ompPropagate (ompC0 st) st
  end.

Definition update : State → option (State * V) :=
  match s with SingleWorker => seqUpdate | MultiWorker => ompUpdate end.

Definition iteration : State → option (State * V) :=
  match s with SingleWorker => seqIteration | MultiWorker => ompIteration end.

(** The crash test of the strategy: worker 0's flag, or any worker's. *)
Definition workerFailed : State → option bool :=
  match s with SingleWorker => seqCrashed | MultiWorker => ompCrashed end.

Definition step : State → option (State * bool) :=
  match s with SingleWorker => seqStep | MultiWorker => ompStep end.

(** The single-worker loop reads [threads[0]]: it needs a descriptor there. *)
Definition workersReady (st : State) : Prop :=
  match s with
  | SingleWorker => is_Some (threads st !! 0%nat)
  | MultiWorker => True
  end.

(** Observations of a run that starts in [st]: the state at the end of
    iteration [j] (the state iteration [j+1] begins with), the error
    iteration [j] computed, and the crash test on the state it left. *)
Definition stateAfter (j : nat) (st : State) : option State :=
  iterate step j st.

Definition errorAt (j : nat) (st : State) : option V :=
  match j with
  | O => None
  | S j' => st' ← stateAfter j' st; it ← iteration st'; Some it.2
  end.

Definition failedAfter (j : nat) (st : State) : option bool :=
  st' ← stateAfter j st; workerFailed st'.

End Body.

(** [pagerankBasicSeqLoop<ASYNC, DEAD>]: the iteration count [l] and the
    state left behind; [e] is unused, as in the source. *)
Definition pagerankBasicSeqLoop (ASYNC DEAD : bool) (e : list Z)
    (a r c : ref) (f : list V) (xv : list nat) (xe vdeg : list K)
    (N : K) (P E : V) (L : Z) (EF : Z) (i n : K)
    (fv : FV) (fa : K → bool) (st : State) : option (Z * State) :=
  whileLt (seqStep ASYNC DEAD a r c f xv xe vdeg N P E EF i n fv fa) L 0 st.

(** [pagerankBasicOmpLoop<ASYNC, DEAD>]. *)
Definition pagerankBasicOmpLoop (ASYNC DEAD : bool) (e : list Z)
    (a r c : ref) (f : list V) (xv : list nat) (xe vdeg : list K)
    (N : K) (P E : V) (L : Z) (EF : Z) (i n : K)
    (fv : FV) (fa : K → bool) (st : State) : option (Z * State) :=
  whileLt (ompStep ASYNC DEAD a r c f xv xe vdeg N P E EF i n fv fa) L 0 st.

(** The loop of a strategy. *)
Definition pagerankBasicLoop (s : Strategy) :=
  match s with
  | SingleWorker => pagerankBasicSeqLoop
  | MultiWorker => pagerankBasicOmpLoop
  end.

End Loop.

(** ** Drivers *)

(** Modelled from the spec: the run configuration ([PagerankOptions],
    declared in [pagerank.hxx]): damping factor, convergence tolerance,
    maximum iteration count, convergence-metric selector. *)
Record PagerankOptions (V : Type) := {
  damping : V;
  tolerance : V;
  maxIterations : Z;
  toleranceNorm : Z
}.
Arguments damping {V} _.
Arguments tolerance {V} _.
Arguments maxIterations {V} _.
Arguments toleranceNorm {V} _.

(** Modelled from the spec: the run result ([PagerankResult], declared in
    [pagerank.hxx]): final rank per vertex and iterations performed. *)
Record PagerankResult (V : Type) := {
  ranks : list V;
  iterations : Z
}.
Arguments ranks {V} _.
Arguments iterations {V} _.

(** Modelled from the spec: the empty result of [return {}], with no ranks
    and no iterations performed. *)
Definition emptyResult {V : Type} : PagerankResult V :=
  {| ranks := []; iterations := 0 |}.

(** What the drivers ask of a graph view ([H]: the transpose they are
    given): the vertex count and the ordered vertex keys. *)
Class GraphView (H : Type) := {
  order : H → K;
  vertexKeys : H → list K
}.

(** What the dynamic drivers ask about a change batch on a graph [G]: the
    traversal that marks the vertices affected by the batch (by key), and
    the remapping of such marks to the dense positions of a list of keys. *)
Class AffectedSetBuilder (G : Type) := {
  pagerankAffectedVerticesTraversal :
    G → list (K * K) → list (K * K) → list bool;
  compressContainer : G → list bool → list K → list bool
}.

(** The type of the loop functions, as the drivers hand them on. *)
Definition LoopFn (V ThreadInfo FV : Type) : Type :=
  list Z → ref → ref → ref → list V → list nat → list K → list K →
  K → V → V → Z → Z → K → K → FV → (K → bool) →
  LoopState V ThreadInfo → option (Z * LoopState V ThreadInfo).

(** [pagerankSeq] and [pagerankOmp] of [pagerank.hxx], which set a run up and
    call the loop they are given: arguments in the order of the call sites
    (template argument [ASYNC] first). *)
Class Harness (H V ThreadInfo FV : Type) := {
  pagerankSeq :
    bool → H → option (list V) → PagerankOptions V → list K → K → K →
    LoopFn V ThreadInfo FV → FV → (K → bool) → option (PagerankResult V);
  pagerankOmp :
    bool → H → option (list V) → PagerankOptions V → list K → K → K →
    LoopFn V ThreadInfo FV → FV → (K → bool) → option (PagerankResult V)
}.

Section Drivers.
Context {G H V ThreadInfo FV : Type}.
Context `{!Scalar V, !Worker ThreadInfo, !RankServices V ThreadInfo FV}.
Context `{!GraphView H, !AffectedSetBuilder G, !Harness H V ThreadInfo FV}.

(** [pagerankBasicSeq<ASYNC, DEAD>(xt, q, o, fv)]; [q] may be null. *)
Definition pagerankBasicSeq (ASYNC DEAD : bool) (xt : H)
    (q : option (list V)) (o : PagerankOptions V) (fv : FV)
    : option (PagerankResult V) :=
  let N := order xt in
  if decide (N = 0%nat) then Some emptyResult else
  let ks := vertexKeys xt in
  let fa := λ u : K, true in
  pagerankSeq ASYNC xt q o ks 0%nat N (pagerankBasicSeqLoop ASYNC DEAD) fv fa.

(** [pagerankBasicOmp<ASYNC, DEAD>(xt, q, o, fv)]. *)
Definition pagerankBasicOmp (ASYNC DEAD : bool) (xt : H)
    (q : option (list V)) (o : PagerankOptions V) (fv : FV)
    : option (PagerankResult V) :=
  let N := order xt in
  if decide (N = 0%nat) then Some emptyResult else
  let ks := vertexKeys xt in
  let fa := λ u : K, true in
  pagerankOmp ASYNC xt q o ks 0%nat N (pagerankBasicOmpLoop ASYNC DEAD) fv fa.

(** The lambda [[&](K u) { return vaff[u]==true; }]; the loop's services
    call it on positions below [N], the length of [vaff] (outside it the
    source reads past the vector; the model answers [false]). *)
Definition affectedAt (vaff : list bool) : K → bool :=
  λ u, bool_decide (vaff !! u = Some true).

(** [pagerankBasicDynamicTraversalSeq<ASYNC, DEAD>(x, xt, y, yt, deletions,
    insertions, q, o, fv)]. *)
Definition pagerankBasicDynamicTraversalSeq (ASYNC DEAD : bool)
    (x : G) (xt : H) (y : G) (yt : H)
    (deletions insertions : list (K * K))
    (q : option (list V)) (o : PagerankOptions V) (fv : FV)
    : option (PagerankResult V) :=
  let N := order yt in
  if decide (N = 0%nat) then Some emptyResult else
  let ks := vertexKeys yt in
  let vaff :=
    compressContainer y
      (pagerankAffectedVerticesTraversal x deletions insertions) ks in
  let fa := affectedAt vaff in
  pagerankSeq ASYNC yt q o ks 0%nat N (pagerankBasicSeqLoop ASYNC DEAD) fv fa.

(** [pagerankBasicDynamicTraversalOmp<ASYNC, DEAD>(...)]. *)
Definition pagerankBasicDynamicTraversalOmp (ASYNC DEAD : bool)
    (x : G) (xt : H) (y : G) (yt : H)
    (deletions insertions : list (K * K))
    (q : option (list V)) (o : PagerankOptions V) (fv : FV)
    : option (PagerankResult V) :=
  let N := order yt in
  if decide (N = 0%nat) then Some emptyResult else
  let ks := vertexKeys yt in
  let vaff :=
    compressContainer y
      (pagerankAffectedVerticesTraversal x deletions insertions) ks in
  let fa := affectedAt vaff in
  pagerankOmp ASYNC yt q o ks 0%nat N (pagerankBasicOmpLoop ASYNC DEAD) fv fa.

(** The four drivers by strategy. *)
Definition pagerankBasic (s : Strategy) :=
  match s with
  | SingleWorker => pagerankBasicSeq
  | MultiWorker => pagerankBasicOmp
  end.

Definition pagerankBasicDynamicTraversal (s : Strategy) :=
  match s with
  | SingleWorker => pagerankBasicDynamicTraversalSeq
  | MultiWorker => pagerankBasicDynamicTraversalOmp
  end.

End Drivers.

(** ** The run harness, from the spec *)

(** What a run takes from the surrounding system besides the loop's own
    services: the edge structure of the graph by position (offsets, targets,
    out-degrees), the initial ranks by position (from the optional vector
    [q]), a new buffer of a given length, the per-vertex scale factors, new
    worker descriptors, the size of the worker pool, and the final ranks by
    key. *)
Class RunSupport (H V ThreadInfo : Type) := {
  sourceOffsets : H → list K → list nat;
  destinationIndices : H → list K → list K;
  vertexDegrees : H → list K → list K;
  initialRanks : H → option (list V) → list K → list V;
  newBuffer : K → list V;
  pagerankFactor : list K → V → K → list V;
  threadInfos : nat → list ThreadInfo;
  workerCount : nat;
  ranksByKey : H → list V → list K → list V
}.

(** The three rank buffers of a run: current, previous, contribution. *)
Definition bufA : ref := 0%nat.
Definition bufR : ref := 1%nat.
Definition bufC : ref := 2%nat.

Section SpecHarness.
Context {H V ThreadInfo FV : Type}.
Context `{!Scalar V, !Worker ThreadInfo, !RankServices V ThreadInfo FV}.
Context `{!GraphView H, !RunSupport H V ThreadInfo}.

(** Modelled from the spec: in asynchronous mode the previous buffer is the
    live one, and the loop gets it as both [a] and [r]. *)
Definition liveBuffer (ASYNC : bool) : ref := if ASYNC then bufR else bufA.

Definition workers (s : Strategy) : nat :=
  match s with SingleWorker => 1%nat | MultiWorker => workerCount end.

Definition rescale (s : Strategy) : list V → list V → list V → K → K → list V :=
  match s with
  | SingleWorker => multiplyValuesW
  | MultiWorker => multiplyValuesOmpW
  end.

(** Modelled from the spec: the state a run starts the loop in.  The
    current and the previous buffer hold the initial ranks, the contribution
    buffer their rescaling, and the worker descriptors are new. *)
Definition initialState (s : Strategy) (xt : H) (q : option (list V))
    (o : PagerankOptions V) (ks : list K) : LoopState V ThreadInfo :=
  let N := order xt in
  let r0 := initialRanks xt q ks in
  let f := pagerankFactor (vertexDegrees xt ks) (damping o) N in
  {| bufs :=
       <[bufC := rescale s (newBuffer N) r0 f 0%nat N]>
         (<[bufR := r0]> (<[bufA := r0]> (λ _, [])));
     threads := threadInfos (workers s) |}.

(** Modelled from the spec: the result of a run, the ranks of the previous
    buffer by key and the iteration count of the loop. *)
Definition runResult (xt : H) (ks : list K)
    (out : Z * LoopState V ThreadInfo) : PagerankResult V :=
  {| ranks := ranksByKey xt (bufs out.2 bufR) ks; iterations := out.1 |}.

(** Modelled from the spec: [pagerankSeq] and [pagerankOmp] (in
    [pagerank.hxx], not among the sources).  A run reads damping, tolerance,
    iteration cap and metric off the options, takes the edge structure off
    the graph, owns three rank buffers of the graph's length and new worker
    descriptors, invokes the loop it is given once, over the range and with
    the callback and predicate it is given, and returns the final ranks
    with the loop's iteration count. *)
Definition pagerankRun (s : Strategy) (ASYNC : bool) (xt : H)
    (q : option (list V)) (o : PagerankOptions V) (ks : list K) (i n : K)
    (fl : LoopFn V ThreadInfo FV) (fv : FV) (fa : K → bool)
    : option (PagerankResult V) :=
  let N := order xt in
  let vdeg := vertexDegrees xt ks in
  let f := pagerankFactor vdeg (damping o) N in
  out ← fl [] (liveBuffer ASYNC) bufR bufC f
          (sourceOffsets xt ks) (destinationIndices xt ks) vdeg
          N (damping o) (tolerance o) (maxIterations o) (toleranceNorm o)
          i n fv fa (initialState s xt q o ks);
  Some (runResult xt ks out).

(** The loop of a run of the drivers of this file: the call [pagerankRun]
    makes when it is given [pagerankBasicLoop s ASYNC DEAD]. *)
Definition runLoop (s : Strategy) (ASYNC DEAD : bool) (xt : H)
    (q : option (list V)) (o : PagerankOptions V) (ks : list K) (i n : K)
    (fv : FV) (fa : K → bool) : option (Z * LoopState V ThreadInfo) :=
  let vdeg := vertexDegrees xt ks in
  pagerankBasicLoop s ASYNC DEAD [] (liveBuffer ASYNC) bufR bufC
    (pagerankFactor vdeg (damping o) (order xt))
    (sourceOffsets xt ks) (destinationIndices xt ks) vdeg
    (order xt) (damping o) (tolerance o) (maxIterations o) (toleranceNorm o)
    i n fv fa (initialState s xt q o ks).

(** One iteration of that loop, and the state of the run after [j]
    iterations. *)
Definition runIteration (s : Strategy) (ASYNC DEAD : bool) (xt : H)
    (o : PagerankOptions V) (ks : list K) (i n : K)
    (fv : FV) (fa : K → bool)
    : LoopState V ThreadInfo → option (LoopState V ThreadInfo * V) :=
  let vdeg := vertexDegrees xt ks in
  iteration s ASYNC DEAD (liveBuffer ASYNC) bufR bufC
    (pagerankFactor vdeg (damping o) (order xt))
    (sourceOffsets xt ks) (destinationIndices xt ks) vdeg
    (order xt) (damping o) (toleranceNorm o) i n fv fa.

Definition runStateAfter (s : Strategy) (ASYNC DEAD : bool) (xt : H)
    (q : option (list V)) (o : PagerankOptions V) (ks : list K) (i n : K)
    (fv : FV) (fa : K → bool) (j : nat) : option (LoopState V ThreadInfo) :=
  let vdeg := vertexDegrees xt ks in
  stateAfter s ASYNC DEAD (liveBuffer ASYNC) bufR bufC
    (pagerankFactor vdeg (damping o) (order xt))
    (sourceOffsets xt ks) (destinationIndices xt ks) vdeg
    (order xt) (damping o) (tolerance o) (toleranceNorm o) i n fv fa
    j (initialState s xt q o ks).

#[local] Instance specHarness : Harness H V ThreadInfo FV := {
  pagerankSeq := pagerankRun SingleWorker;
  pagerankOmp := pagerankRun MultiWorker
}.

End SpecHarness.

(** ** A reference instance

    Binary64 ranks and list-based services, to run the loops and the drivers
    on concrete graphs.  Keys are the positions [0 .. N-1]. *)
Module Reference.

Import PrimFloat.
Local Open Scope float_scope.
#[local] Set Warnings "-inexact-float".

(** A vertex count as a float (exact below [2^53]). *)
Fixpoint floatOfNat (n : nat) : float :=
  match n with
  | O => 0
  | S n' => floatOfNat n' + 1
  end.

#[export] Instance floatScalar : Scalar float := {
  Vone := 1;
  Vsub := PrimFloat.sub;
  Vdiv := PrimFloat.div;
  Vltb := PrimFloat.ltb;
  VofK := floatOfNat
}.

(** A worker descriptor: the failure flag and a count of vertices visited. *)
Record ThreadInfo := {
  flag : bool;
  visited : nat
}.

#[export] Instance workerFlag : Worker ThreadInfo := {
  crashed := flag
}.

(** The per-vertex callback, by what it does to the descriptor it is given
    at a vertex. *)
Definition Callback := K → ThreadInfo → ThreadInfo.

(** A callback that counts the visit. *)
Definition countVisit : Callback :=
  λ _ t, {| flag := flag t; visited := S (visited t) |}.

(** A callback that also sets the failure flag at vertex [v0]. *)
Definition crashAt (v0 : K) : Callback :=
  λ v t, {| flag := flag t || bool_decide (v = v0); visited := S (visited t) |}.

Definition at0 (l : list float) (v : nat) : float := default 0 (l !! v).

(** Modelled from the spec: the rank of an affected vertex is [C0] plus the
    contributions of its in-neighbours (the targets of its edges in the
    transpose). *)
Definition rankOf (c : list float) (xv : list nat) (xe : list K)
    (C0 : float) (v : K) : float :=
  let lo := default 0%nat (xv !! v) in
  let hi := default 0%nat (xv !! S v) in
  foldl (λ acc e, acc + at0 c (default 0%nat (xe !! e))) C0
        (seq lo (hi - lo)).

(** Modelled from the spec: the rank propagator over [[i, i+n)], restricted
    to affected vertices; the callback runs once per vertex computed. *)
Definition calculateRanks (a c : list float) (xv : list nat) (xe : list K)
    (C0 : float) (i n : K) (t : ThreadInfo) (fv : Callback)
    (fa : K → bool) : list float * ThreadInfo :=
  foldl (λ st v,
           if fa v then (<[v := rankOf c xv xe C0 v]> st.1, fv v st.2)
           else st)
        (a, t) (seq i n).

(** The same sweep with the vertices dealt round-robin to the workers. *)
Definition calculateRanksOmp (a c : list float) (xv : list nat)
    (xe : list K) (C0 : float) (i n : K) (ts : list ThreadInfo)
    (fv : Callback) (fa : K → bool) : list float * list ThreadInfo :=
  foldl (λ st v,
           if fa v
           then (<[v := rankOf c xv xe C0 v]> st.1,
                 alter (fv v) (v mod length ts)%nat st.2)
           else st)
        (a, ts) (seq i n).

(** Modelled from the spec: [c[v] = a[v] * f[v]] over the range. *)
Definition multiplyValues (c a f : list float) (i n : K) : list float :=
  foldl (λ c v, <[v := at0 a v * at0 f v]> c) c (seq i n).

(** Modelled from the spec: the error between two rank vectors over the
    range, under the L1 norm (selector 1), the L2 norm (2) or the
    L-infinity norm (any other selector). *)
Definition rankError (a r : list float) (EF : Z) (i n : K) : float :=
  let d v := abs (at0 a v - at0 r v) in
  if decide (EF = 1%Z) then foldl (λ acc v, acc + d v) 0 (seq i n)
  else if decide (EF = 2%Z)
       then sqrt (foldl (λ acc v, acc + d v * d v) 0 (seq i n))
  else foldl (λ acc v, if ltb acc (d v) then d v else acc) 0 (seq i n).

(** Modelled from the spec: the teleport term plus the damping-weighted
    rank held by the vertices of out-degree zero. *)
Definition teleport (r : list float) (vdeg : list K) (P : float) (N : K)
    : float :=
  foldl (λ acc u,
           if decide (default 0%nat (vdeg !! u) = 0%nat)
           then acc + P * at0 r u / floatOfNat N
           else acc)
        ((1 - P) / floatOfNat N) (seq 0 N).

#[export] Instance services : RankServices float ThreadInfo Callback := {
  pagerankTeleport := teleport;
  pagerankCalculateRanks := calculateRanks;
  multiplyValuesW := multiplyValues;
  pagerankError := rankError;
  pagerankTeleportOmp := teleport;
  pagerankCalculateRanksOmp := calculateRanksOmp;
  multiplyValuesOmpW := multiplyValues;
  pagerankErrorOmp := rankError
}.

(** A graph on the vertices [0 .. size-1], by its arcs.  As a transpose,
    an arc [(v, u)] stands for the edge [u -> v] of the original graph. *)
Record Graph := {
  size : nat;
  arcs : list (K * K)
}.

#[export] Instance graphView : GraphView Graph := {
  order := size;
  vertexKeys g := seq 0 (size g)
}.

Definition targetsOf (g : Graph) (v : K) : list K :=
  (filter (λ e, e.1 = v) (arcs g)).*2.

(** Modelled from the spec: the vertices reachable from the endpoints of
    the changed edges, by a traversal of at most [size] rounds. *)
Fixpoint reach (g : Graph) (fuel : nat) (seen : list K) : list K :=
  match fuel with
  | O => seen
  | S fuel' =>
      reach g fuel'
        (seen ++ filter (λ v, v ∉ seen) (seen ≫= targetsOf g))
  end.

Definition affectedVertices (x : Graph) (deletions insertions : list (K * K))
    : list bool :=
  let changed := deletions ++ insertions in
  let seen := reach x (size x) (changed.*1 ++ changed.*2) in
  (λ v, bool_decide (v ∈ seen)) <$> seq 0 (size x).

#[export] Instance affectedSetBuilder : AffectedSetBuilder Graph := {
  pagerankAffectedVerticesTraversal := affectedVertices;
  compressContainer _ marks ks := (λ k, default false (marks !! k)) <$> ks
}.

(** Offsets of the arcs of each vertex in the concatenation of all target
    lists. *)
Fixpoint offsetsFrom (g : Graph) (start : nat) (ks : list K) : list nat :=
  match ks with
  | [] => [start]
  | k :: ks' => start :: offsetsFrom g (start + length (targetsOf g k)) ks'
  end.

(** Out-degree in the original graph: the arcs of the transpose that end
    in the vertex. *)
Definition outDegree (g : Graph) (u : K) : nat :=
  length (filter (λ e, e.2 = u) (arcs g)).

#[export] Instance runSupport : RunSupport Graph float ThreadInfo := {
  sourceOffsets g ks := offsetsFrom g 0 ks;
  destinationIndices g ks := ks ≫= targetsOf g;
  vertexDegrees g ks := outDegree g <$> ks;
  initialRanks g q ks :=
    match q with
    | Some qv => at0 qv <$> ks
    | None => replicate (size g) (1 / floatOfNat (size g))
    end;
  newBuffer N := replicate N 0;
  pagerankFactor vdeg P N :=
    (λ d, if decide (d = 0%nat) then 0 else P / floatOfNat d) <$> vdeg;
  threadInfos T := replicate T {| flag := false; visited := 0 |};
  workerCount := 2;
  ranksByKey _ r _ := r
}.

Definition transpose (g : Graph) : Graph :=
  {| size := size g; arcs := (λ e, (e.2, e.1)) <$> arcs g |}.

(** The 4-cycle [0 -> 1 -> 2 -> 3 -> 0], and its transpose. *)
Definition ring4 : Graph :=
  {| size := 4; arcs := [(0, 1); (1, 2); (2, 3); (3, 0)]%nat |}.

Definition cycle4 : Graph := transpose ring4.

(** The 4-cycle after the insertion of the edge [1 -> 3]. *)
Definition chord4 : Graph :=
  {| size := 4; arcs := [(0, 1); (1, 2); (1, 3); (2, 3); (3, 0)]%nat |}.

(** Two separate edges, [0 -> 1] and [2 -> 3]. *)
Definition pairs4 : Graph :=
  {| size := 4; arcs := [(0, 1); (2, 3)]%nat |}.

(** The graph without vertices. *)
Definition noGraph : Graph := {| size := 0; arcs := [] |}.

(** Damping 0.85, tolerance 1e-10, at most 500 iterations, L1 norm. *)
Definition defaults : PagerankOptions float :=
  {| damping := 0.85; tolerance := 1e-10;
     maxIterations := 500; toleranceNorm := 1 |}.

(** The loop's arguments for a run on the 4-cycle. *)
Definition keys4 : list K := vertexKeys cycle4.
Definition offsets4 : list nat := sourceOffsets cycle4 keys4.
Definition targets4 : list K := destinationIndices cycle4 keys4.
Definition degrees4 : list K := vertexDegrees cycle4 keys4.
Definition scale4 : list float := pagerankFactor degrees4 0.85 4%nat.

(** Initial ranks that are not yet converged. *)
Definition skewed : list float := [0.1; 0.2; 0.3; 0.4].

(** The state a run on the 4-cycle starts the loop in. *)
Definition start (s : Strategy) : LoopState float ThreadInfo :=
  initialState s cycle4 (Some skewed) defaults keys4.

(** The same state with the failure flag of its worker already set. *)
Definition crashedStart : LoopState float ThreadInfo :=
  {| bufs := bufs (start SingleWorker);
     threads := [{| flag := true; visited := 0 |}] |}.

(** The single-worker loop on the 4-cycle, synchronous, with dead-end
    handling, capped at [L] iterations. *)
Definition loop4 (L : Z) (fv : Callback) (st : LoopState float ThreadInfo)
    : option (Z * LoopState float ThreadInfo) :=
  pagerankBasicLoop SingleWorker false true [] bufA bufR bufC
    scale4 offsets4 targets4 degrees4 4%nat 0.85 1e-10 L 1 0%nat 4%nat
    fv (λ _, true) st.

(** The state three iterations of it leave. *)
Definition after3 : LoopState float ThreadInfo :=
  from_option snd (start SingleWorker) (loop4 3 countVisit (start SingleWorker)).

(** The first iteration of the static sequential driver on the 4-cycle
    from the uniform ranks. *)
Definition firstUniform : option (LoopState float ThreadInfo * float) :=
  runIteration SingleWorker false false cycle4 defaults keys4 0%nat 4%nat
    countVisit (λ _, true)
    (initialState SingleWorker cycle4 None defaults keys4).

(** The state that first iteration leaves. *)
Definition afterUniform : LoopState float ThreadInfo :=
  from_option fst (start SingleWorker) firstUniform.

(** A batch that inserts the edge [1 -> 3]. *)
Definition insert13 : list (K * K) := [(1, 3)]%nat.

End Reference.

(** ** Further inputs for the reference instance *)
Module ReferenceMore.
Import Reference.
#[local] Set Warnings "-inexact-float".

(** A second descriptor, with its failure flag set. *)
Definition failedWorker : ThreadInfo := {| flag := true; visited := 0 |}.

(** The start state with that descriptor behind the first one, and the
    state three iterations leave from it. *)
Definition pairStart : LoopState float ThreadInfo :=
  {| bufs := bufs (start SingleWorker);
     threads := threads (start SingleWorker) ++ [failedWorker] |}.

Definition pairAfter3 : LoopState float ThreadInfo :=
  from_option snd pairStart (loop4 3 countVisit pairStart).

(** The start state without any descriptor. *)
Definition noWorkers : LoopState float ThreadInfo :=
  {| bufs := bufs (start SingleWorker); threads := [] |}.

(** The state left by the run that the callback stops at vertex 2. *)
Definition crashAfter1 : LoopState float ThreadInfo :=
  from_option snd (start SingleWorker)
    (loop4 500 (crashAt 2%nat) (start SingleWorker)).

(** The asynchronous single-worker loop on the 4-cycle, with different
    vectors behind [a] and [r], and the state three iterations leave. *)
Definition asyncLoop4 (L : Z) (fv : Callback)
    (st : LoopState float ThreadInfo)
    : option (Z * LoopState float ThreadInfo) :=
  pagerankBasicLoop SingleWorker true true [] bufA bufR bufC
    scale4 offsets4 targets4 degrees4 4%nat 0.85%float 1e-10%float L 1
    0%nat 4%nat fv (λ _, true) st.

Definition asyncAfter3 : LoopState float ThreadInfo :=
  from_option snd (start SingleWorker)
    (asyncLoop4 3 countVisit (start SingleWorker)).

(** One update with the same vector behind [a] and [r]. *)
Definition aliasedUpdate : option (LoopState float ThreadInfo * float) :=
  update SingleWorker true bufR bufR bufC scale4 offsets4 targets4 degrees4
    4%nat 0.85%float 1 0%nat 4%nat countVisit (λ _, true)
    (start SingleWorker).

Definition aliasedAfter : LoopState float ThreadInfo :=
  from_option fst (start SingleWorker) aliasedUpdate.

Definition aliasedError : float := from_option snd 0%float aliasedUpdate.

(** The error the third iteration of [loop4] computes. *)
Definition error3 : float :=
  default 0%float
    (errorAt SingleWorker false true bufA bufR bufC scale4 offsets4 targets4
       degrees4 4%nat 0.85%float 1e-10%float 1 0%nat 4%nat countVisit
       (λ _, true) 3 (start SingleWorker)).

(** The multi-worker loop on the 4-cycle, synchronous, with dead-end
    handling, capped at [L] iterations; its start state has two workers,
    and the propagator of the reference instance hands vertex [v] to worker
    [v mod 2]. *)
Definition ompLoop4 (L : Z) (fv : Callback)
    (st : LoopState float ThreadInfo)
    : option (Z * LoopState float ThreadInfo) :=
  pagerankBasicLoop MultiWorker false true [] bufA bufR bufC
    scale4 offsets4 targets4 degrees4 4%nat 0.85%float 1e-10%float L 1
    0%nat 4%nat fv (λ _, true) st.

End ReferenceMore.

(** * Properties *)

(** ** The loop skeleton *)
Section WhileFacts.
Context {St : Type}.
Variable body : St → option (St * bool).

Lemma whileLt_step (L l : Z) (st : St) :
  whileLt body L l st =
  if decide (l < L) then
    match body st with
    | Some (st', true) => Some (l + 1, st')
    | Some (st', false) => whileLt body L (l + 1) st'
    | None => None
    end
  else Some (l, st).
Proof.
  simp whileLt. destruct (decide (l < L)); simpl; [|done].
  destruct (body st) as [[st' []]|]; done.
Qed.

Lemma whileLt_Run (L l : Z) (st : St) (l' : Z) (st' : St) :
  whileLt body L l st = Some (l', st') → Run body L l st l' st'.
Proof.
  remember (Z.to_nat (L - l)) as m eqn:Hm.
  revert l st Hm. induction m as [m IH] using lt_wf_ind. intros l st Hm.
  rewrite whileLt_step. destruct (decide (l < L)) as [Hlt|Hge].
  - destruct (body st) as [[st1 []]|] eqn:Hb; intros Hw.
    + injection Hw as <- <-. by apply run_break.
    + eapply run_continue; [done..|].
      eapply (IH (Z.to_nat (L - (l + 1)))); [lia|done|done].
    + done.
  - intros Hw. injection Hw as <- <-. by apply run_exit.
Qed.

Lemma Run_whileLt (L l : Z) (st : St) (l' : Z) (st' : St) :
  Run body L l st l' st' → whileLt body L l st = Some (l', st').
Proof.
  induction 1 as [l st Hge|l st st' Hlt Hb|l st st1 l' st' Hlt Hb _ IH];
    rewrite whileLt_step.
  - by rewrite decide_False.
  - by rewrite decide_True, Hb.
  - by rewrite decide_True, Hb.
Qed.

(** A run is a number [k] of iterations: the counter advances by [k], the
    state is the one [k] iterations leave, and iteration [j] is the last
    one exactly when a [break] fired at its end or it reached the cap. *)
Lemma Run_iterate (L l : Z) (st : St) (l' : Z) (st' : St) :
  Run body L l st l' st' →
  ∃ k : nat,
    l' = l + Z.of_nat k ∧ iterate body k st = Some st' ∧
    (l < L → (1 ≤ k)%nat ∧ l' ≤ L) ∧ (¬ l < L → k = 0%nat) ∧
    ∀ j : nat, (1 ≤ j ≤ k)%nat →
      ∃ b, breakAt body j st = Some b ∧
           (j = k ↔ b = true ∨ l + Z.of_nat j = L).
Proof.
  induction 1 as [l st Hge|l st st' Hlt Hb|l st st1 l' st' Hlt Hb _ IH].
  - exists 0%nat. repeat split; try done; lia.
  - exists 1%nat. repeat split; try lia.
    + simpl. by rewrite Hb.
    + intros j Hj. assert (j = 1%nat) as -> by lia.
      exists true. simpl. rewrite Hb. simpl. split; [done|]. split; auto.
  - destruct IH as (k & -> & Hit & Hcap & Hexit & Hbr).
    assert (l + 1 + Z.of_nat k ≤ L) as Hle.
    { destruct (decide (l + 1 < L)) as [H1|H1]; [by apply Hcap|].
      rewrite (Hexit H1). lia. }
    exists (S k). repeat split; try lia.
    + simpl. by rewrite Hb.
    + intros j Hj. destruct j as [|[|j]]; [lia| |].
      * exists false. simpl. rewrite Hb. simpl. split; [done|].
        split.
        -- intros [= <-]. right. lia.
        -- intros [?|?]; [done|]. f_equal.
           destruct (decide (l + 1 < L)) as [H1|H1]; [lia|].
           by rewrite (Hexit H1).
      * destruct (Hbr (S j) ltac:(lia)) as (b & Hbj & Hiff).
        exists b. split.
        -- revert Hbj. simpl. rewrite Hb. simpl. done.
        -- replace (l + Z.of_nat (S (S j))) with (l + 1 + Z.of_nat (S j)) by lia.
           rewrite <- Hiff. split; [by intros [= ->]|by intros ->].
Qed.

(** A loop whose iterations are defined on the states of an invariant
    returns. *)
Lemma whileLt_total (ok : St → Prop) (L : Z) :
  (∀ st, ok st → ∃ st' b, body st = Some (st', b) ∧ ok st') →
  ∀ l st, ok st → ∃ l' st', whileLt body L l st = Some (l', st') ∧ ok st'.
Proof.
  intros Hok l st. remember (Z.to_nat (L - l)) as m eqn:Hm.
  revert l st Hm. induction m as [m IH] using lt_wf_ind. intros l st Hm Hst.
  rewrite whileLt_step. destruct (decide (l < L)) as [Hlt|Hge]; [|eauto].
  destruct (Hok st Hst) as (st1 & b & -> & Hst1). destruct b; [eauto|].
  eapply (IH (Z.to_nat (L - (l + 1)))); [lia|done|done].
Qed.

(** If a [break] fires at the end of iteration [m], the loop returns after
    at most [m] iterations, in the state they leave. *)
Lemma whileLt_break_by (L : Z) (m : nat) :
  ∀ l st, breakAt body m st = Some true →
  ∃ k st', (k ≤ m)%nat ∧ whileLt body L l st = Some (l + Z.of_nat k, st')
           ∧ iterate body k st = Some st'.
Proof.
  induction m as [|m IH]; intros l st; [done|].
  rewrite whileLt_step. destruct (decide (l < L)) as [Hlt|Hge].
  2:{ intros _. exists 0%nat, st. repeat split; [lia|f_equal; f_equal; lia]. }
  destruct m as [|m].
  - simpl. destruct (body st) as [[st1 b]|] eqn:Hb; [|done]. simpl.
    intros [= ->]. exists 1%nat, st1. simpl. rewrite Hb. repeat split; [lia..].
  - intros Hbr. change (breakAt body (S (S m)) st) with
      (st' ← (it ← body st; iterate body m it.1); it ← body st'; Some it.2)
      in Hbr.
    destruct (body st) as [[st1 b]|] eqn:Hb; [|done]. simpl in Hbr.
    destruct b.
    + exists 1%nat, st1. simpl. rewrite Hb. repeat split; [lia..].
    + destruct (IH (l + 1) st1 Hbr) as (k & st' & Hk & Hw & Hit).
      exists (S k), st'. simpl. rewrite Hb. simpl. repeat split; [lia| |done].
      rewrite Hw. f_equal. f_equal. lia.
Qed.

End WhileFacts.

Lemma iterate_S {St : Type} (body : St → option (St * bool)) (j : nat) (st : St) :
  iterate body (S j) st = it ← body st; iterate body j it.1.
Proof. reflexivity. Qed.

Lemma iterate_snoc {St : Type} (body : St → option (St * bool)) (j : nat) :
  ∀ st, iterate body (S j) st = st' ← iterate body j st; it ← body st'; Some it.1.
Proof.
  induction j as [|j IH]; intros st.
  - simpl. destruct (body st) as [[st1 b]|]; done.
  - rewrite (iterate_S body (S j) st), (iterate_S body j st).
    destruct (body st) as [[st1 b]|]; [|done]. cbn -[iterate]. apply IH.
Qed.

Lemma iterate_snoc_inv {St : Type} (body : St → option (St * bool)) (j : nat)
    (st stj : St) :
  iterate body (S j) st = Some stj →
  ∃ stp b, iterate body j st = Some stp ∧ body stp = Some (stj, b).
Proof.
  rewrite iterate_snoc. destruct (iterate body j st) as [stp|]; [|done].
  simpl. destruct (body stp) as [[x b]|] eqn:Hb; [|done].
  intros [= ->]. eauto.
Qed.

Lemma iterate_prefix {St : Type} (body : St → option (St * bool)) (j k : nat) :
  ∀ st, (j ≤ k)%nat → is_Some (iterate body k st) → is_Some (iterate body j st).
Proof.
  revert j. induction k as [|k IH]; intros j st Hj Hk.
  - assert (j = 0%nat) as -> by lia. done.
  - destruct j as [|j]; [by eexists|]. simpl in *.
    destruct (body st) as [[st1 b]|]; simpl in *; [|done].
    apply IH; [lia|done].
Qed.

(** ** The iteration loops *)
Section LoopFacts.
Context {V ThreadInfo FV : Type}.
Context `{!Scalar V, !Worker ThreadInfo, !RankServices V ThreadInfo FV}.
Variables (s : Strategy) (ASYNC DEAD : bool) (e : list Z).
Variables (a r c : ref) (f : list V) (xv : list nat) (xe vdeg : list K).
Variables (N : K) (P E : V) (L EF : Z) (i n : K) (fv : FV) (fa : K → bool).

Abbreviation State := (LoopState V ThreadInfo).
Abbreviation update' := (update s DEAD a r c f xv xe vdeg N P EF i n fv fa).
Abbreviation iteration' :=
  (iteration s ASYNC DEAD a r c f xv xe vdeg N P EF i n fv fa).
Abbreviation step' :=
  (step s ASYNC DEAD a r c f xv xe vdeg N P E EF i n fv fa).
Abbreviation stateAfter' :=
  (stateAfter s ASYNC DEAD a r c f xv xe vdeg N P E EF i n fv fa).
Abbreviation errorAt' :=
  (errorAt s ASYNC DEAD a r c f xv xe vdeg N P E EF i n fv fa).
Abbreviation failedAfter' :=
  (failedAfter s ASYNC DEAD a r c f xv xe vdeg N P E EF i n fv fa).
Abbreviation loop' :=
  (pagerankBasicLoop s ASYNC DEAD e a r c f xv xe vdeg N P E L EF i n fv fa).

Lemma exchange_threads (st : State) :
  threads (exchange ASYNC a r st) = threads st.
Proof. unfold exchange. by destruct ASYNC. Qed.

Lemma iteration_inv (st st' : State) (el : V) :
  iteration' st = Some (st', el) →
  ∃ stu, update' st = Some (stu, el) ∧ st' = exchange ASYNC a r stu.
Proof.
  destruct s; simpl; unfold seqIteration, ompIteration;
    intros Hit; match type of Hit with
                | context [?u ≫= _] => destruct u as [[stu el']|] eqn:Hu
                end; simpl in Hit; try done;
    injection Hit as <- <-; eauto.
Qed.

Lemma update_ready (st stu : State) (el : V) :
  update' st = Some (stu, el) → workersReady s stu.
Proof.
  destruct s; simpl; [|done].
  unfold seqUpdate, seqUpdateWith, seqPropagate.
  destruct (threads st !! 0%nat) as [t0|] eqn:Ht; simpl; [|done].
  destruct (pagerankCalculateRanks _ _ _ _ _ _ _ _ _ _) as [a' t0'].
  intros [= <- _]. simpl. exists t0'.
  apply list_lookup_insert_eq. by eapply lookup_lt_Some.
Qed.

Lemma iteration_ready (st st' : State) (el : V) :
  iteration' st = Some (st', el) → workersReady s st'.
Proof.
  intros (stu & Hu & ->)%iteration_inv. apply update_ready in Hu.
  destruct s; [|done]. simpl in *. by rewrite exchange_threads.
Qed.

Lemma ready_failed (st : State) :
  workersReady s st → ∃ failed, workerFailed s st = Some failed.
Proof.
  destruct s; simpl.
  - intros [t Ht]. unfold seqCrashed. rewrite Ht. by eexists.
  - by eexists.
Qed.

Lemma ready_iteration (st : State) :
  workersReady s st → ∃ st' el, iteration' st = Some (st', el).
Proof.
  destruct s; simpl.
  - intros [t Ht]. unfold seqIteration, seqUpdate, seqUpdateWith, seqPropagate.
    rewrite Ht. simpl.
    destruct (pagerankCalculateRanks _ _ _ _ _ _ _ _ _ _) as [a' t0'].
    simpl. by do 2 eexists.
  - intros _. unfold ompIteration, ompUpdate, ompUpdateWith, ompPropagate.
    simpl. destruct (pagerankCalculateRanksOmp _ _ _ _ _ _ _ _ _ _) as [a' ts'].
    simpl. by do 2 eexists.
Qed.

(** A step is an iteration followed by the two tests of its end. *)
Lemma step_inv (st st' : State) (b : bool) :
  step' st = Some (st', b) ↔
  ∃ el failed, iteration' st = Some (st', el) ∧
               workerFailed s st' = Some failed ∧
               b = Vltb el E || failed.
Proof.
  split.
  - intros Hstep.
    assert (∃ el, iteration' st = Some (st', el) ∧
                  (if Vltb el E then Some true else workerFailed s st') = Some b)
      as (el & Hit & Hstop).
    { destruct s; simpl in *; unfold seqStep, ompStep in Hstep;
        match type of Hstep with
        | context [?u ≫= _] => destruct u as [[st1 el]|] eqn:Hit
        end; simpl in Hstep; try done;
        unfold seqStop, ompStop in Hstep;
        match type of Hstep with
        | context [?u ≫= _] => destruct u as [b0|] eqn:Hs
        end; simpl in Hstep; try done;
        injection Hstep as <- <-; eauto. }
    destruct (ready_failed st' (iteration_ready _ _ _ Hit)) as [failed Hf].
    exists el, failed. repeat split; [done..|].
    rewrite Hf in Hstop. destruct (Vltb el E); by injection Hstop as <-.
  - intros (el & failed & Hit & Hf & ->).
    destruct s; simpl in *; unfold seqStep, ompStep; rewrite Hit; simpl;
      unfold seqStop, ompStop; destruct (Vltb el E); simpl; try done;
      unfold ompCrashed in *; rewrite ?Hf; by simplify_eq.
Qed.

Lemma ready_step (st : State) :
  workersReady s st → ∃ st' b, step' st = Some (st', b) ∧ workersReady s st'.
Proof.
  intros Hst. destruct (ready_iteration st Hst) as (st' & el & Hit).
  pose proof (iteration_ready _ _ _ Hit) as Hst'.
  destruct (ready_failed st' Hst') as [failed Hf].
  exists st', (Vltb el E || failed). split; [|done].
  apply step_inv. eauto.
Qed.

(** The observations at iteration [j], from the [break] flag of the step. *)
Lemma breakAt_inv (j : nat) (st : State) (b : bool) :
  breakAt step' j st = Some b →
  ∃ el failed, errorAt' j st = Some el ∧ failedAfter' j st = Some failed ∧
               b = Vltb el E || failed.
Proof.
  destruct j as [|j]; [done|]. unfold failedAfter, errorAt, stateAfter.
  rewrite iterate_snoc. simpl.
  destruct (iterate step' j st) as [stp|]; simpl; [|done].
  destruct (step' stp) as [[st' b']|] eqn:Hstep; simpl; [|done].
  intros [= ->]. apply step_inv in Hstep as (el & failed & Hit & Hf & ->).
  exists el, failed. by rewrite Hit.
Qed.

(** The loop returns on states whose workers are ready. *)
Lemma loop_returns (st : State) :
  workersReady s st →
  ∃ l st', loop' st = Some (l, st') ∧ workersReady s st'.
Proof.
  intros Hst.
  destruct (whileLt_total step' (workersReady s) L ready_step 0 st Hst)
    as (l & st' & Hw & Hst').
  exists l, st'. split; [|done]. by destruct s.
Qed.

Lemma loop_Run (st : State) (l : Z) (st' : State) :
  loop' st = Some (l, st') ↔ Run step' L 0 st l st'.
Proof.
  split.
  - intros Hl. apply whileLt_Run. by destruct s.
  - intros HR. apply Run_whileLt in HR. by destruct s.
Qed.

(** A [break] at the end of the first iteration: at most one iteration. *)
Lemma loop_first_break (st st1 : State) :
  step' st = Some (st1, true) → ∃ l st', loop' st = Some (l, st') ∧ l ≤ 1.
Proof.
  intros Hstep.
  assert (loop' st = whileLt step' L 0 st) as -> by (by destruct s).
  rewrite whileLt_step, Hstep. destruct (decide (0 < L)).
  - exists (0 + 1), st1. split; [done|lia].
  - exists 0, st. split; [done|lia].
Qed.

(** The run as a sequence of iterations: iteration [j] of a run that
    returns [l] starts in the state left by iteration [j-1]. *)
Lemma loop_stateAfter (st : State) (l : Z) (st' : State) :
  loop' st = Some (l, st') →
  ∃ k : nat, l = Z.of_nat k ∧ stateAfter' k st = Some st'.
Proof.
  intros HR%loop_Run. apply Run_iterate in HR as (k & -> & Hit & _).
  exists k. split; [lia|done].
Qed.

Lemma loop_iteration_at (st : State) (l : Z) (st' : State) (j : nat) :
  loop' st = Some (l, st') → 1 ≤ Z.of_nat j ≤ l →
  ∃ stp stj el failed,
    stateAfter' (j - 1) st = Some stp ∧ iteration' stp = Some (stj, el) ∧
    stateAfter' j st = Some stj ∧ workerFailed s stj = Some failed.
Proof.
  intros (k & -> & Hk)%loop_stateAfter Hj.
  destruct j as [|j]; [lia|].
  assert (is_Some (stateAfter' (S j) st)) as [stj Hstj].
  { eapply (iterate_prefix _ (S j) k); [lia|by eexists]. }
  replace (S j - 1)%nat with j by lia.
  apply iterate_snoc_inv in Hstj as Hstep.
  destruct Hstep as (stp & b & Hstp & Hstep).
  apply step_inv in Hstep as (el & failed & Hit & Hf & _).
  by exists stp, stj, el, failed.
Qed.

(** The crash test of a strategy, by the failure flags it reads: the flag
    of the descriptor behind [threads[0]] in the single-worker loop, the
    flag of any descriptor of [threads] in the multi-worker loop. *)
Lemma workerFailed_crashed (st : State) (failed : bool) :
  workerFailed s st = Some failed →
  (failed = true ↔
   match s with
   | SingleWorker =>
       ∃ t0, threads st !! 0%nat = Some t0 ∧ crashed t0 = true
   | MultiWorker => ∃ t, t ∈ threads st ∧ crashed t = true
   end).
Proof.
  destruct s; simpl.
  - unfold seqCrashed.
    destruct (threads st !! 0%nat) as [t0|]; simpl; [|done].
    intros [= <-]. split; [by exists t0|]. by intros (t & [= <-] & Ht).
  - unfold ompCrashed, threadInfosCrashedCount. intros [= <-].
    rewrite bool_decide_eq_true. split.
    + intros Hcount.
      destruct (filter (λ t, crashed t = true) (threads st))
        as [|t ts] eqn:Hfilter; [simpl in Hcount; lia|].
      assert (t ∈ filter (λ t, crashed t = true) (threads st)) as Ht
        by (rewrite Hfilter; apply list_elem_of_here).
      apply list_elem_of_filter in Ht as [Hcr Hin]. by exists t.
    + intros (t & Hin & Hcr).
      assert (t ∈ filter (λ t, crashed t = true) (threads st)) as Ht
        by (by apply list_elem_of_filter).
      destruct (filter (λ t, crashed t = true) (threads st)) as [|t' ts];
        [by apply elem_of_nil in Ht|simpl; lia].
Qed.

(** C3: with an iteration cap [L >= 1] the loop returns, after [l]
    iterations with [1 <= l <= L], and iteration [j] is the last one
    exactly when the error it computed is strictly below the tolerance, or
    [j] has reached [L], or a failure flag is set in the state it leaves:
    the flag of the worker behind [threads[0]] in the single-worker loop,
    the flag of any worker of [threads] in the multi-worker loop. *)
Theorem loop_stops_exactly_when (st : State) :
  1 ≤ L → workersReady s st →
  ∃ l st',
    pagerankBasicLoop s ASYNC DEAD e a r c f xv xe vdeg N P E L EF i n fv fa st
      = Some (l, st') ∧
    1 ≤ l ≤ L ∧
    ∀ j : nat, 1 ≤ Z.of_nat j ≤ l →
      ∃ el stj,
        errorAt s ASYNC DEAD a r c f xv xe vdeg N P E EF i n fv fa j st
          = Some el ∧
        stateAfter s ASYNC DEAD a r c f xv xe vdeg N P E EF i n fv fa j st
          = Some stj ∧
        (Z.of_nat j = l ↔
         Vltb el E = true ∨ Z.of_nat j = L ∨
         match s with
         | SingleWorker =>
             ∃ t0, threads stj !! 0%nat = Some t0 ∧ crashed t0 = true
         | MultiWorker => ∃ t, t ∈ threads stj ∧ crashed t = true
         end).
Proof.
  intros HL Hst. destruct (loop_returns st Hst) as (l & st' & Hloop & _).
  exists l, st'. split; [done|].
  apply loop_Run, Run_iterate in Hloop as (k & -> & _ & Hcap & _ & Hbr).
  destruct (Hcap ltac:(lia)) as [Hk HkL]. split; [lia|].
  intros j Hj. destruct (Hbr j ltac:(lia)) as (b & Hb & Hiff).
  apply breakAt_inv in Hb as (el & failed & Hel & Hf & ->).
  unfold failedAfter in Hf.
  destruct (stateAfter s ASYNC DEAD a r c f xv xe vdeg N P E EF i n fv fa j st)
    as [stj|] eqn:Hstj; [|done].
  simpl in Hf. apply workerFailed_crashed in Hf as Hflag.
  exists el, stj. do 2 (split; [done|]). split.
  - intros Hjk. assert (j = k) as Hjk' by lia.
    apply Hiff in Hjk' as [Hb|HjL].
    + apply orb_true_iff in Hb as [?|Hfailed]; [by left|].
      right. right. by apply Hflag.
    + right. left. lia.
  - intros Hstop. cut (j = k); [lia|]. apply Hiff.
    destruct Hstop as [Hel'|[HjL|Hcr]].
    + left. by rewrite Hel'.
    + right. lia.
    + left. apply Hflag in Hcr. rewrite Hcr. apply orb_true_r.
Qed.

(** C9: with [L >= 1] the loop performs the first iteration whatever the
    state it starts in (no test precedes it: a failure flag already set, or
    ranks already within tolerance, do not prevent it), and the iteration
    count it returns is at least 1. *)
Theorem loop_runs_first_iteration (st : State) :
  1 ≤ L → workersReady s st →
  ∃ l st' st1 el,
    pagerankBasicLoop s ASYNC DEAD e a r c f xv xe vdeg N P E L EF i n fv fa st
      = Some (l, st') ∧
    1 ≤ l ∧
    iteration s ASYNC DEAD a r c f xv xe vdeg N P EF i n fv fa st
      = Some (st1, el) ∧
    stateAfter s ASYNC DEAD a r c f xv xe vdeg N P E EF i n fv fa 1 st
      = Some st1 ∧
    stateAfter s ASYNC DEAD a r c f xv xe vdeg N P E EF i n fv fa
      (Z.to_nat l) st = Some st'.
Proof.
  intros HL Hst. destruct (loop_returns st Hst) as (l & st' & Hloop & _).
  pose proof Hloop as (k & -> & Hk)%loop_stateAfter.
  pose proof Hloop as HR%loop_Run.
  apply Run_iterate in HR as (k' & Hk' & _ & Hcap & _).
  destruct (Hcap ltac:(lia)) as [Hk1 _]. assert (k' = k) as -> by lia.
  destruct (loop_iteration_at st _ st' 1 Hloop ltac:(lia))
    as (stp & st1 & el & failed & Hstp & Hit & Hst1 & _).
  injection Hstp as <-.
  exists (Z.of_nat k), st', st1, el. rewrite Nat2Z.id.
  repeat split; try done. lia.
Qed.

(** C1, as the code has it: for [k >= 2], if the failure flag is set when
    iteration [k] would begin (in the state iteration [k-1] leaves), the
    loop returns an iteration count strictly below [k], and the state it
    returns, rank buffers included, is the one its last iteration left:
    nothing is written after the stop. *)
Theorem crash_stops_loop_before_next_iteration (k : nat) (st : State) :
  (2 ≤ k)%nat →
  failedAfter s ASYNC DEAD a r c f xv xe vdeg N P E EF i n fv fa (k - 1) st
    = Some true →
  ∃ l st',
    pagerankBasicLoop s ASYNC DEAD e a r c f xv xe vdeg N P E L EF i n fv fa st
      = Some (l, st') ∧
    l < Z.of_nat k ∧
    stateAfter s ASYNC DEAD a r c f xv xe vdeg N P E EF i n fv fa
      (Z.to_nat l) st = Some st'.
Proof.
  intros Hk Hfail. destruct k as [|[|m]]; [lia..|].
  replace (S (S m) - 1)%nat with (S m) in Hfail by lia.
  assert (breakAt step' (S m) st = Some true) as Hbr.
  { unfold failedAfter, stateAfter in Hfail.
    destruct (iterate step' (S m) st) as [stm|] eqn:Hstm; [|done].
    simpl in Hfail. apply iterate_snoc_inv in Hstm as (stp & b & Hstp & Hstep).
    unfold breakAt. rewrite Hstp. simpl. rewrite Hstep. simpl.
    apply step_inv in Hstep as (el & failed & _ & Hf & ->).
    rewrite Hfail in Hf. injection Hf as <-. by rewrite orb_true_r. }
  destruct (whileLt_break_by step' L (S m) 0 st Hbr) as (j & st' & Hj & Hw & Hit).
  exists (Z.of_nat j), st'. rewrite Nat2Z.id. repeat split; [|lia|done].
  by destruct s.
Qed.

Lemma update_updateWith (st : State) :
  update' st =
  updateWith s a r c f xv xe EF i n fv fa
    (baseContribution s DEAD r vdeg N P st) st.
Proof. by destruct s. Qed.

Lemma baseContribution_eq (st : State) :
  baseContribution s DEAD r vdeg N P st =
  if DEAD
  then match s with
       | SingleWorker => pagerankTeleport
       | MultiWorker => pagerankTeleportOmp
       end (bufs st r) vdeg P N
  else Vdiv (Vsub Vone P) (VofK N).
Proof. by destruct s, DEAD. Qed.

(** What an update leaves in the buffers and returns as the error. *)
Lemma update_inv (st stu : State) (el : V) :
  update' st = Some (stu, el) →
  ∃ a', newRanks s DEAD a r c xv xe vdeg N P i n fv fa st = Some a' ∧
        bufs stu a = (if decide (c = a) then bufs stu c else a') ∧
        el = match s with
             | SingleWorker => pagerankError
             | MultiWorker => pagerankErrorOmp
             end (bufs stu a) (bufs stu r) EF i n.
Proof.
  destruct s; simpl.
  - unfold seqUpdate, seqUpdateWith.
    destruct (seqPropagate _ _ _ _ _ _ _ _ _ _) as [[a' t']|] eqn:Hp;
      simpl; [|done].
    intros [= <- <-]. exists a'. simpl. split; [done|]. split; [|done].
    destruct (decide (c = a)) as [->|Hca]; [done|].
    by rewrite fn_lookup_insert_ne, fn_lookup_insert.
  - unfold ompUpdate, ompUpdateWith, ompPropagate. simpl.
    destruct (pagerankCalculateRanksOmp _ _ _ _ _ _ _ _ _ _) as [a' t'].
    intros [= <- <-]. exists a'. simpl. split; [done|]. split; [|done].
    destruct (decide (c = a)) as [->|Hca]; [done|].
    by rewrite fn_lookup_insert_ne, fn_lookup_insert.
Qed.

Lemma swap_lookup_r (p q : ref) (h : store V) : swap p q h q = h p.
Proof. unfold swap. apply fn_lookup_insert. Qed.

Lemma swap_lookup_a (p q : ref) (h : store V) : swap p q h p = h q.
Proof.
  unfold swap. destruct (decide (q = p)) as [->|Hne].
  - apply fn_lookup_insert.
  - by rewrite fn_lookup_insert_ne, fn_lookup_insert.
Qed.

Lemma swap_lookup_ne (p q : ref) (h : store V) (x : ref) :
  x ≠ p → x ≠ q → swap p q h x = h x.
Proof. intros Ha Hr. unfold swap. by rewrite !fn_lookup_insert_ne. Qed.

(** C4: in every iteration the loop performs, the base contribution [C0]
    handed to the propagator is [(1-P)/N] when dead-end handling is off,
    and the dangling-mass estimate of the previous-rank buffer [r], the
    out-degrees, [P] and [N] when it is on.  From the second iteration on,
    in synchronous mode or when [a] and [r] name the same vector, that
    buffer holds the ranks the preceding iteration produced. *)
Theorem base_contribution_each_iteration (st : State) (l : Z) (st' : State) :
  pagerankBasicLoop s ASYNC DEAD e a r c f xv xe vdeg N P E L EF i n fv fa st
    = Some (l, st') →
  ∀ j : nat, 1 ≤ Z.of_nat j ≤ l →
    ∃ stp stu el,
      stateAfter s ASYNC DEAD a r c f xv xe vdeg N P E EF i n fv fa (j - 1) st
        = Some stp ∧
      updateWith s a r c f xv xe EF i n fv fa
        (if DEAD
         then match s with
              | SingleWorker => pagerankTeleport
              | MultiWorker => pagerankTeleportOmp
              end (bufs stp r) vdeg P N
         else Vdiv (Vsub Vone P) (VofK N)) stp = Some (stu, el) ∧
      stateAfter s ASYNC DEAD a r c f xv xe vdeg N P E EF i n fv fa j st
        = Some (exchange ASYNC a r stu) ∧
      ((2 ≤ j)%nat → ASYNC = false ∨ a = r → c ≠ a →
       ∃ stpp,
         stateAfter s ASYNC DEAD a r c f xv xe vdeg N P E EF i n fv fa
           (j - 2) st = Some stpp ∧
         newRanks s DEAD a r c xv xe vdeg N P i n fv fa stpp
           = Some (bufs stp r)).
Proof.
  intros Hloop j Hj.
  destruct (loop_iteration_at st l st' j Hloop Hj)
    as (stp & stj & el & failed & Hstp & Hit & Hstj & _).
  apply iteration_inv in Hit as (stu & Hu & ->).
  exists stp, stu, el. rewrite <- baseContribution_eq, <- update_updateWith.
  repeat split; try done.
  intros Hj2 Hmode Hca.
  destruct (loop_iteration_at st l st' (j - 1) Hloop ltac:(lia))
    as (stpp & stp' & el' & failed' & Hstpp & Hit' & Hstp' & _).
  replace (j - 1 - 1)%nat with (j - 2)%nat in Hstpp by lia.
  rewrite Hstp in Hstp'. injection Hstp' as <-.
  apply iteration_inv in Hit' as (stu' & Hu' & ->).
  exists stpp. split; [done|].
  apply update_inv in Hu' as (a' & -> & Ha' & _).
  rewrite decide_False in Ha' by done. f_equal. rewrite <- Ha'.
  unfold exchange. destruct Hmode as [->| ->].
  - simpl. by rewrite swap_lookup_r.
  - by destruct ASYNC; simpl; rewrite ?swap_lookup_r.
Qed.

(** C5: in every iteration the loop performs, the last one included, the
    error is computed on the buffers as the update left them, and then the
    contents of [a] and [r] are exchanged if the mode is synchronous (the
    newest ranks, which the propagator wrote to [a], are then in [r], and
    the other buffers are as they were) and nothing is changed if it is
    asynchronous.  The state the loop returns is the one its last iteration
    left. *)
Theorem buffers_exchanged_iff_synchronous (st : State) (l : Z) (st' : State) :
  pagerankBasicLoop s ASYNC DEAD e a r c f xv xe vdeg N P E L EF i n fv fa st
    = Some (l, st') →
  stateAfter s ASYNC DEAD a r c f xv xe vdeg N P E EF i n fv fa (Z.to_nat l) st
    = Some st' ∧
  ∀ j : nat, 1 ≤ Z.of_nat j ≤ l →
    ∃ stp stu el stj,
      stateAfter s ASYNC DEAD a r c f xv xe vdeg N P E EF i n fv fa (j - 1) st
        = Some stp ∧
      update s DEAD a r c f xv xe vdeg N P EF i n fv fa stp = Some (stu, el) ∧
      el = match s with
           | SingleWorker => pagerankError
           | MultiWorker => pagerankErrorOmp
           end (bufs stu a) (bufs stu r) EF i n ∧
      stateAfter s ASYNC DEAD a r c f xv xe vdeg N P E EF i n fv fa j st
        = Some stj ∧
      threads stj = threads stu ∧
      (c ≠ a →
       newRanks s DEAD a r c xv xe vdeg N P i n fv fa stp
         = Some (bufs stu a)) ∧
      if ASYNC then stj = stu
      else bufs stj r = bufs stu a ∧ bufs stj a = bufs stu r ∧
           ∀ p : ref, p ≠ a → p ≠ r → bufs stj p = bufs stu p.
Proof.
  intros Hloop. split.
  { apply loop_stateAfter in Hloop as (k & -> & Hk). by rewrite Nat2Z.id. }
  intros j Hj.
  destruct (loop_iteration_at st l st' j Hloop Hj)
    as (stp & stj & el & failed & Hstp & Hit & Hstj & _).
  apply iteration_inv in Hit as (stu & Hu & ->).
  exists stp, stu, el, (exchange ASYNC a r stu).
  pose proof Hu as (a' & Hnew & Ha' & Hel)%update_inv.
  do 4 (split; [done|]). split; [apply exchange_threads|]. split.
  { intros Hca. rewrite decide_False in Ha' by done. by rewrite Ha'. }
  unfold exchange. destruct ASYNC; [done|]. simpl.
  auto using swap_lookup_r, swap_lookup_a, swap_lookup_ne.
Qed.

End LoopFacts.

(** ** The drivers *)
Section DriverFacts.
Context {G H V ThreadInfo FV : Type}.
Context `{!Scalar V, !Worker ThreadInfo, !RankServices V ThreadInfo FV}.
Context `{!GraphView H, !AffectedSetBuilder G}.
Context `{!RunSupport H V ThreadInfo}.

(** What a driver returns under the harness of the spec: the result of the
    loop of its run. *)
Lemma pagerankRun_runLoop (s : Strategy) (ASYNC DEAD : bool) (xt : H)
    (q : option (list V)) (o : PagerankOptions V) (ks : list K) (i n : K)
    (fv : FV) (fa : K → bool) :
  pagerankRun s ASYNC xt q o ks i n (pagerankBasicLoop s ASYNC DEAD) fv fa =
  out ← runLoop s ASYNC DEAD xt q o ks i n fv fa; Some (runResult xt ks out).
Proof. reflexivity. Qed.

(** Every iteration of the loop of a run is an iteration with the range
    and the predicate the run was given. *)
Lemma runLoop_iteration_at (s : Strategy) (ASYNC DEAD : bool) (xt : H)
    (q : option (list V)) (o : PagerankOptions V) (ks : list K) (i n : K)
    (fv : FV) (fa : K → bool) (l : Z) (st' : LoopState V ThreadInfo)
    (j : nat) :
  runLoop s ASYNC DEAD xt q o ks i n fv fa = Some (l, st') →
  1 ≤ Z.of_nat j ≤ l →
  ∃ stp stj el,
    runStateAfter s ASYNC DEAD xt q o ks i n fv fa (j - 1) = Some stp ∧
    runIteration s ASYNC DEAD xt o ks i n fv fa stp = Some (stj, el) ∧
    runStateAfter s ASYNC DEAD xt q o ks i n fv fa j = Some stj.
Proof.
  intros Hloop Hj. unfold runLoop in Hloop.
  eapply loop_iteration_at in Hloop
    as (stp & stj & el & _ & Hstp & Hit & Hstj & _); [|exact Hj].
  by exists stp, stj, el.
Qed.

Section AnyHarness.
Context `{!Harness H V ThreadInfo FV}.

(** C7: on a graph without vertices (the count is read off the transpose
    the driver is given, [xt] or [yt]) each of the four drivers returns the
    empty result, a proper result and no failure, whatever the harness that
    would run the loop: the loop is not invoked. *)
Theorem empty_graph_empty_result (s : Strategy) (ASYNC DEAD : bool)
    (x : G) (xt : H) (y : G) (g : H) (deletions insertions : list (K * K))
    (q : option (list V)) (o : PagerankOptions V) (fv : FV) :
  order g = 0%nat →
  pagerankBasic s ASYNC DEAD g q o fv = Some emptyResult ∧
  pagerankBasicDynamicTraversal s ASYNC DEAD x xt y g deletions insertions
    q o fv = Some emptyResult.
Proof.
  intros Hg. destruct s; simpl;
    unfold pagerankBasicSeq, pagerankBasicOmp,
      pagerankBasicDynamicTraversalSeq, pagerankBasicDynamicTraversalOmp;
    by rewrite !decide_True.
Qed.

(** C10: the dynamic drivers do not read the transpose of the pre-change
    graph: two calls that differ in [xt] only return the same result. *)
Theorem dynamic_result_independent_of_xt (s : Strategy) (ASYNC DEAD : bool)
    (x : G) (xt xt' : H) (y : G) (yt : H)
    (deletions insertions : list (K * K))
    (q : option (list V)) (o : PagerankOptions V) (fv : FV) :
  pagerankBasicDynamicTraversal s ASYNC DEAD x xt y yt deletions insertions
    q o fv =
  pagerankBasicDynamicTraversal s ASYNC DEAD x xt' y yt deletions insertions
    q o fv.
Proof.
  destruct s; simpl;
    unfold pagerankBasicDynamicTraversalSeq, pagerankBasicDynamicTraversalOmp;
    destruct (decide (order yt = 0%nat)); reflexivity.
Qed.

Lemma pagerankBasic_call (ASYNC DEAD : bool) (xt : H)
    (q : option (list V)) (o : PagerankOptions V) (fv : FV) :
  order xt ≠ 0%nat →
  pagerankBasicSeq ASYNC DEAD xt q o fv =
    pagerankSeq ASYNC xt q o (vertexKeys xt) 0%nat (order xt)
      (pagerankBasicSeqLoop ASYNC DEAD) fv (λ _, true) ∧
  pagerankBasicOmp ASYNC DEAD xt q o fv =
    pagerankOmp ASYNC xt q o (vertexKeys xt) 0%nat (order xt)
      (pagerankBasicOmpLoop ASYNC DEAD) fv (λ _, true).
Proof.
  intros HN. unfold pagerankBasicSeq, pagerankBasicOmp.
  by rewrite !decide_False.
Qed.

Lemma pagerankBasicDynamicTraversal_call (ASYNC DEAD : bool)
    (x : G) (xt : H) (y : G) (yt : H) (deletions insertions : list (K * K))
    (q : option (list V)) (o : PagerankOptions V) (fv : FV) :
  order yt ≠ 0%nat →
  let fa :=
    affectedAt
      (compressContainer y
         (pagerankAffectedVerticesTraversal x deletions insertions)
         (vertexKeys yt)) in
  pagerankBasicDynamicTraversalSeq ASYNC DEAD x xt y yt deletions insertions
      q o fv =
    pagerankSeq ASYNC yt q o (vertexKeys yt) 0%nat (order yt)
      (pagerankBasicSeqLoop ASYNC DEAD) fv fa ∧
  pagerankBasicDynamicTraversalOmp ASYNC DEAD x xt y yt deletions insertions
      q o fv =
    pagerankOmp ASYNC yt q o (vertexKeys yt) 0%nat (order yt)
      (pagerankBasicOmpLoop ASYNC DEAD) fv fa.
Proof.
  intros HN. unfold pagerankBasicDynamicTraversalSeq,
    pagerankBasicDynamicTraversalOmp.
  by rewrite !decide_False.
Qed.

End AnyHarness.

(** Under the harness of the spec a driver returns the result of the loop
    of its run. *)
Lemma pagerankBasic_runLoop (s : Strategy) (ASYNC DEAD : bool) (xt : H)
    (q : option (list V)) (o : PagerankOptions V) (fv : FV) :
  order xt ≠ 0%nat →
  pagerankBasic (Harness0 := specHarness) s ASYNC DEAD xt q o fv =
    (out ← runLoop s ASYNC DEAD xt q o (vertexKeys xt) 0%nat (order xt) fv
             (λ _, true);
     Some (runResult xt (vertexKeys xt) out)).
Proof.
  intros HN.
  destruct (pagerankBasic_call (Harness0 := specHarness)
              ASYNC DEAD xt q o fv HN) as [Hseq Homp].
  destruct s; simpl; [rewrite Hseq|rewrite Homp].
  - exact (pagerankRun_runLoop SingleWorker ASYNC DEAD xt q o _ _ _ fv _).
  - exact (pagerankRun_runLoop MultiWorker ASYNC DEAD xt q o _ _ _ fv _).
Qed.

Lemma pagerankBasicDynamicTraversal_runLoop (s : Strategy) (ASYNC DEAD : bool)
    (x : G) (xt : H) (y : G) (yt : H) (deletions insertions : list (K * K))
    (q : option (list V)) (o : PagerankOptions V) (fv : FV) :
  order yt ≠ 0%nat →
  pagerankBasicDynamicTraversal (Harness0 := specHarness) s ASYNC DEAD
      x xt y yt deletions insertions q o fv =
    (out ← runLoop s ASYNC DEAD yt q o (vertexKeys yt) 0%nat (order yt) fv
             (affectedAt
                (compressContainer y
                   (pagerankAffectedVerticesTraversal x deletions insertions)
                   (vertexKeys yt)));
     Some (runResult yt (vertexKeys yt) out)).
Proof.
  intros HN.
  destruct (pagerankBasicDynamicTraversal_call (Harness0 := specHarness)
              ASYNC DEAD x xt y yt deletions insertions q o fv HN)
    as [Hseq Homp].
  destruct s; simpl; [rewrite Hseq|rewrite Homp].
  - exact (pagerankRun_runLoop SingleWorker ASYNC DEAD yt q o _ _ _ fv _).
  - exact (pagerankRun_runLoop MultiWorker ASYNC DEAD yt q o _ _ _ fv _).
Qed.

(** C8: on a graph with vertices the static drivers pass the loop of
    their strategy, the range that starts at 0 and counts [N] vertices, and
    the predicate that is true of every vertex; under the harness of the
    spec the result is that of the loop run over this range with this
    predicate, and every iteration of the run is one over [0, N) in which
    every vertex counts as affected. *)
Theorem static_driver_full_range `{!Harness H V ThreadInfo FV}
    (s : Strategy) (ASYNC DEAD : bool) (xt : H)
    (q : option (list V)) (o : PagerankOptions V) (fv : FV) :
  order xt ≠ 0%nat →
  let ks := vertexKeys xt in
  let fa := λ _ : K, true in
  (pagerankBasicSeq ASYNC DEAD xt q o fv =
     pagerankSeq ASYNC xt q o ks 0%nat (order xt)
       (pagerankBasicSeqLoop ASYNC DEAD) fv fa ∧
   pagerankBasicOmp ASYNC DEAD xt q o fv =
     pagerankOmp ASYNC xt q o ks 0%nat (order xt)
       (pagerankBasicOmpLoop ASYNC DEAD) fv fa) ∧
  pagerankBasic (Harness0 := specHarness) s ASYNC DEAD xt q o fv =
    (out ← runLoop s ASYNC DEAD xt q o ks 0%nat (order xt) fv fa;
     Some (runResult xt ks out)) ∧
  ∀ (l : Z) (st' : LoopState V ThreadInfo) (j : nat),
    runLoop s ASYNC DEAD xt q o ks 0%nat (order xt) fv fa = Some (l, st') →
    1 ≤ Z.of_nat j ≤ l →
    ∃ stp stj el,
      runStateAfter s ASYNC DEAD xt q o ks 0%nat (order xt) fv fa (j - 1)
        = Some stp ∧
      runIteration s ASYNC DEAD xt o ks 0%nat (order xt) fv fa stp
        = Some (stj, el) ∧
      runStateAfter s ASYNC DEAD xt q o ks 0%nat (order xt) fv fa j
        = Some stj.
Proof.
  intros HN ks fa. split; [by apply pagerankBasic_call|]. split.
  - by apply pagerankBasic_runLoop.
  - intros l st' j. apply runLoop_iteration_at.
Qed.

(** C2: on a post-change graph with vertices the dynamic drivers compute,
    before the run, the marks of the affected-set traversal of the
    pre-change graph and the batch, remapped to the positions of the
    post-change graph, and pass the predicate that reads these marks; under
    the harness of the spec the result is that of the loop run with this
    predicate, and every iteration of the run uses this same predicate. *)
Theorem dynamic_driver_affected_predicate `{!Harness H V ThreadInfo FV}
    (s : Strategy) (ASYNC DEAD : bool)
    (x : G) (xt : H) (y : G) (yt : H) (deletions insertions : list (K * K))
    (q : option (list V)) (o : PagerankOptions V) (fv : FV) :
  order yt ≠ 0%nat →
  let ks := vertexKeys yt in
  let vaff :=
    compressContainer y
      (pagerankAffectedVerticesTraversal x deletions insertions) ks in
  let fa := affectedAt vaff in
  (pagerankBasicDynamicTraversalSeq ASYNC DEAD x xt y yt deletions insertions
       q o fv =
     pagerankSeq ASYNC yt q o ks 0%nat (order yt)
       (pagerankBasicSeqLoop ASYNC DEAD) fv fa ∧
   pagerankBasicDynamicTraversalOmp ASYNC DEAD x xt y yt deletions insertions
       q o fv =
     pagerankOmp ASYNC yt q o ks 0%nat (order yt)
       (pagerankBasicOmpLoop ASYNC DEAD) fv fa) ∧
  (∀ u : K, fa u = true ↔ vaff !! u = Some true) ∧
  pagerankBasicDynamicTraversal (Harness0 := specHarness) s ASYNC DEAD
      x xt y yt deletions insertions q o fv =
    (out ← runLoop s ASYNC DEAD yt q o ks 0%nat (order yt) fv fa;
     Some (runResult yt ks out)) ∧
  ∀ (l : Z) (st' : LoopState V ThreadInfo) (j : nat),
    runLoop s ASYNC DEAD yt q o ks 0%nat (order yt) fv fa = Some (l, st') →
    1 ≤ Z.of_nat j ≤ l →
    ∃ stp stj el,
      runStateAfter s ASYNC DEAD yt q o ks 0%nat (order yt) fv fa (j - 1)
        = Some stp ∧
      runIteration s ASYNC DEAD yt o ks 0%nat (order yt) fv fa stp
        = Some (stj, el) ∧
      runStateAfter s ASYNC DEAD yt q o ks 0%nat (order yt) fv fa j
        = Some stj.
Proof.
  intros HN ks vaff fa.
  split; [by apply pagerankBasicDynamicTraversal_call|]. split.
  { intros u. unfold fa, affectedAt. apply bool_decide_eq_true. }
  split.
  - by apply pagerankBasicDynamicTraversal_runLoop.
  - intros l st' j. apply runLoop_iteration_at.
Qed.

(** C6: under the harness of the spec, on a graph with vertices, if the
    error the first iteration computes from the initial ranks is below the
    tolerance, the static driver returns with an iteration count of at
    most 1. *)
Theorem converged_start_at_most_one_iteration (s : Strategy)
    (ASYNC DEAD : bool) (xt : H) (q : option (list V))
    (o : PagerankOptions V) (fv : FV)
    (st1 : LoopState V ThreadInfo) (el : V) :
  order xt ≠ 0%nat →
  runIteration s ASYNC DEAD xt o (vertexKeys xt) 0%nat (order xt) fv
    (λ _, true) (initialState s xt q o (vertexKeys xt)) = Some (st1, el) →
  Vltb el (tolerance o) = true →
  ∃ res,
    pagerankBasic (Harness0 := specHarness) s ASYNC DEAD xt q o fv = Some res ∧
    iterations res ≤ 1.
Proof.
  intros HN Hit Hel.
  rewrite (pagerankBasic_runLoop s ASYNC DEAD xt q o fv HN).
  unfold runIteration in Hit.
  pose proof Hit as Hready. eapply iteration_ready in Hready.
  apply ready_failed in Hready as [failed Hf].
  assert (step s ASYNC DEAD (liveBuffer ASYNC) bufR bufC
            (pagerankFactor (vertexDegrees xt (vertexKeys xt)) (damping o)
               (order xt))
            (sourceOffsets xt (vertexKeys xt))
            (destinationIndices xt (vertexKeys xt))
            (vertexDegrees xt (vertexKeys xt))
            (order xt) (damping o) (tolerance o) (toleranceNorm o)
            0%nat (order xt) fv (λ _, true)
            (initialState s xt q o (vertexKeys xt)) = Some (st1, true))
    as Hstep.
  { apply step_inv. exists el, failed. by rewrite Hel. }
  unfold runLoop.
  destruct (loop_first_break s ASYNC DEAD [] _ _ _ _ _ _ _ _ _ _
              (maxIterations o) _ _ _ _ _ _ _ Hstep) as (l & st' & -> & Hl).
  simpl. by eexists.
Qed.


End DriverFacts.

(** ** Runs of the reference instance *)
Module ReferenceRuns.
Import Reference.
#[local] Existing Instance specHarness.
#[local] Set Warnings "-inexact-float".

(** C3 on the 4-cycle, multi-worker with two workers: the callback sets the
    failure flag of worker 1 at vertex 1, during the first iteration. *)
Lemma loop_stops_exactly_when_witness :
  1 ≤ 500 ∧ workersReady MultiWorker (start MultiWorker) ∧
  ∃ l st',
    ReferenceMore.ompLoop4 500 (crashAt 1%nat) (start MultiWorker)
      = Some (l, st') ∧
    1 ≤ l ≤ 500 ∧
    ∀ j : nat, 1 ≤ Z.of_nat j ≤ l →
      ∃ el stj,
        errorAt MultiWorker false true bufA bufR bufC scale4 offsets4
          targets4 degrees4 4%nat 0.85%float 1e-10%float 1 0%nat 4%nat
          (crashAt 1%nat) (λ _, true) j (start MultiWorker) = Some el ∧
        stateAfter MultiWorker false true bufA bufR bufC scale4 offsets4
          targets4 degrees4 4%nat 0.85%float 1e-10%float 1 0%nat 4%nat
          (crashAt 1%nat) (λ _, true) j (start MultiWorker) = Some stj ∧
        (Z.of_nat j = l ↔
         Vltb el 1e-10%float = true ∨ Z.of_nat j = 500 ∨
         ∃ t, t ∈ threads stj ∧ crashed t = true).
Proof.
  split; [lia|]. split; [exact I|].
  apply (loop_stops_exactly_when MultiWorker false true [] bufA bufR bufC
           scale4 offsets4 targets4 degrees4 4%nat 0.85%float 1e-10%float
           500 1 0%nat 4%nat (crashAt 1%nat) (λ _, true) (start MultiWorker));
    [lia|exact I].
Defined.

(** That run stops after its first iteration, whose error is not below the
    tolerance, on the flag of worker 1 alone; the single-worker loop stops
    likewise on the flag of its worker 0. *)
Example run_multi_worker_crash :
  fst <$> ReferenceMore.ompLoop4 500 (crashAt 1%nat) (start MultiWorker)
    = Some 1 ∧
  (λ el, Vltb el 1e-10%float) <$>
    errorAt MultiWorker false true bufA bufR bufC scale4 offsets4
      targets4 degrees4 4%nat 0.85%float 1e-10%float 1 0%nat 4%nat
      (crashAt 1%nat) (λ _, true) 1 (start MultiWorker) = Some false ∧
  (λ out, crashed <$> threads out.2) <$>
    ReferenceMore.ompLoop4 500 (crashAt 1%nat) (start MultiWorker)
    = Some [false; true].
Proof. repeat split; vm_compute; reflexivity. Qed.

Example run_single_worker_crash :
  fst <$> loop4 500 (crashAt 2%nat) (start SingleWorker) = Some 1 ∧
  (λ el, Vltb el 1e-10%float) <$>
    errorAt SingleWorker false true bufA bufR bufC scale4 offsets4
      targets4 degrees4 4%nat 0.85%float 1e-10%float 1 0%nat 4%nat
      (crashAt 2%nat) (λ _, true) 1 (start SingleWorker) = Some false ∧
  (λ out, crashed <$> threads out.2) <$>
    loop4 500 (crashAt 2%nat) (start SingleWorker) = Some [true].
Proof. repeat split; vm_compute; reflexivity. Qed.

(** C9 on the 4-cycle, from a state whose failure flag is already set. *)
Lemma loop_runs_first_iteration_witness :
  1 ≤ 500 ∧ workersReady SingleWorker crashedStart ∧
  ∃ l st', loop4 500 countVisit crashedStart = Some (l, st') ∧ 1 ≤ l.
Proof.
  split; [lia|]. split; [vm_compute; eauto|].
  destruct (loop_runs_first_iteration SingleWorker false true [] bufA bufR
              bufC scale4 offsets4 targets4 degrees4 4%nat 0.85%float
              1e-10%float 500 1 0%nat 4%nat countVisit (λ _, true)
              crashedStart)
    as (l & st' & st1 & el & Hloop & Hl & _); [lia|vm_compute; eauto|].
  exists l, st'. split; [exact Hloop|exact Hl].
Defined.

(** C1 as amended, on the 4-cycle: the callback sets the flag at vertex 2
    during the first iteration, so it is set when the second would begin. *)
Lemma crash_stops_loop_before_next_iteration_witness :
  (2 ≤ 2)%nat ∧
  failedAfter SingleWorker false true bufA bufR bufC scale4 offsets4 targets4
    degrees4 4%nat 0.85%float 1e-10%float 1 0%nat 4%nat (crashAt 2%nat)
    (λ _, true) (2 - 1) (start SingleWorker) = Some true ∧
  ∃ l st',
    loop4 500 (crashAt 2%nat) (start SingleWorker) = Some (l, st') ∧
    l < Z.of_nat 2.
Proof.
  split; [lia|]. split; [vm_compute; reflexivity|].
  destruct (crash_stops_loop_before_next_iteration SingleWorker false true []
              bufA bufR bufC scale4 offsets4 targets4 degrees4 4%nat
              0.85%float 1e-10%float 500 1 0%nat 4%nat (crashAt 2%nat)
              (λ _, true) 2%nat (start SingleWorker))
    as (l & st' & Hloop & Hl & _); [lia|vm_compute; reflexivity|].
  exists l, st'. split; [exact Hloop|exact Hl].
Defined.

(** C1 as stated fails at [k = 1]: the failure flag of worker 0 is set
    before the first iteration begins, and the loop still performs that
    iteration and returns 1, which is not below 1. *)
Lemma crash_before_first_iteration_counterexample :
  failedAfter SingleWorker false true bufA bufR bufC scale4 offsets4 targets4
    degrees4 4%nat 0.85%float 1e-10%float 1 0%nat 4%nat countVisit
    (λ _, true) (1 - 1) crashedStart = Some true ∧
  fst <$> pagerankBasicSeqLoop false true [] bufA bufR bufC scale4 offsets4
            targets4 degrees4 4%nat 0.85%float 1e-10%float 500 1 0%nat 4%nat
            countVisit (λ _, true) crashedStart = Some 1 ∧
  ¬ (1 < Z.of_nat 1).
Proof.
  split; [vm_compute; reflexivity|]. split; [vm_compute; reflexivity|lia].
Qed.

(** C4 on the 4-cycle: three iterations with dead-end handling. *)
Lemma base_contribution_each_iteration_witness :
  loop4 3 countVisit (start SingleWorker) = Some (3, after3) ∧
  ∀ j : nat, 1 ≤ Z.of_nat j ≤ 3 →
    ∃ stp stu el,
      stateAfter SingleWorker false true bufA bufR bufC scale4 offsets4
        targets4 degrees4 4%nat 0.85%float 1e-10%float 1 0%nat 4%nat
        countVisit (λ _, true) (j - 1) (start SingleWorker) = Some stp ∧
      updateWith SingleWorker bufA bufR bufC scale4 offsets4 targets4 1
        0%nat 4%nat countVisit (λ _, true)
        (pagerankTeleport (bufs stp bufR) degrees4 0.85%float 4%nat) stp
        = Some (stu, el).
Proof.
  assert (loop4 3 countVisit (start SingleWorker) = Some (3, after3))
    as Hloop by (vm_compute; reflexivity).
  split; [exact Hloop|]. intros j Hj.
  destruct (base_contribution_each_iteration SingleWorker false true []
              bufA bufR bufC scale4 offsets4 targets4 degrees4 4%nat
              0.85%float 1e-10%float 3 1 0%nat 4%nat countVisit (λ _, true)
              (start SingleWorker) 3 after3 Hloop j Hj)
    as (stp & stu & el & Hstp & Hu & _).
  exists stp, stu, el. split; [exact Hstp|exact Hu].
Defined.

(** C5 on the 4-cycle: the state three synchronous iterations return. *)
Lemma buffers_exchanged_iff_synchronous_witness :
  loop4 3 countVisit (start SingleWorker) = Some (3, after3) ∧
  stateAfter SingleWorker false true bufA bufR bufC scale4 offsets4
    targets4 degrees4 4%nat 0.85%float 1e-10%float 1 0%nat 4%nat
    countVisit (λ _, true) (Z.to_nat 3) (start SingleWorker) = Some after3.
Proof.
  assert (loop4 3 countVisit (start SingleWorker) = Some (3, after3))
    as Hloop by (vm_compute; reflexivity).
  split; [exact Hloop|].
  exact (proj1 (buffers_exchanged_iff_synchronous SingleWorker false true []
                  bufA bufR bufC scale4 offsets4 targets4 degrees4 4%nat
                  0.85%float 1e-10%float 3 1 0%nat 4%nat countVisit
                  (λ _, true) (start SingleWorker) 3 after3 Hloop)).
Defined.

(** C6 on the 4-cycle from the uniform ranks: the first iteration finds an
    error of 0, below the tolerance. *)
Lemma converged_start_at_most_one_iteration_witness :
  order cycle4 ≠ 0%nat ∧
  runIteration SingleWorker false false cycle4 defaults (vertexKeys cycle4)
    0%nat (order cycle4) countVisit (λ _, true)
    (initialState SingleWorker cycle4 None defaults (vertexKeys cycle4))
    = Some (afterUniform, 0%float) ∧
  Vltb 0%float (tolerance defaults) = true ∧
  ∃ res,
    pagerankBasic SingleWorker false false cycle4 None defaults countVisit
      = Some res ∧
    iterations res ≤ 1.
Proof.
  assert (order cycle4 ≠ 0%nat) as HN by (vm_compute; lia).
  assert (runIteration SingleWorker false false cycle4 defaults
            (vertexKeys cycle4) 0%nat (order cycle4) countVisit (λ _, true)
            (initialState SingleWorker cycle4 None defaults
               (vertexKeys cycle4)) = Some (afterUniform, 0%float)) as Hit
    by (vm_compute; reflexivity).
  assert (Vltb 0%float (tolerance defaults) = true) as Hel
    by (vm_compute; reflexivity).
  split; [exact HN|]. split; [exact Hit|]. split; [exact Hel|].
  exact (converged_start_at_most_one_iteration SingleWorker false
           false cycle4 None defaults countVisit afterUniform 0%float
           HN Hit Hel).
Defined.

(** C7 on the graph without vertices. *)
Lemma empty_graph_empty_result_witness :
  order noGraph = 0%nat ∧
  pagerankBasic SingleWorker false false noGraph None defaults countVisit
    = Some emptyResult ∧
  pagerankBasicDynamicTraversal SingleWorker false false ring4 cycle4
    noGraph noGraph (arcs ring4) [] None defaults countVisit
    = Some emptyResult.
Proof.
  split; [reflexivity|].
  apply (empty_graph_empty_result SingleWorker false false ring4 cycle4
           noGraph noGraph (arcs ring4) [] None defaults countVisit).
  reflexivity.
Defined.

(** C8 on the 4-cycle. *)
Lemma static_driver_full_range_witness :
  order cycle4 ≠ 0%nat ∧
  pagerankBasic SingleWorker false false cycle4 None defaults countVisit =
    (out ← runLoop SingleWorker false false cycle4 None defaults
             (vertexKeys cycle4) 0%nat (order cycle4) countVisit (λ _, true);
     Some (runResult cycle4 (vertexKeys cycle4) out)).
Proof.
  assert (order cycle4 ≠ 0%nat) as HN by (vm_compute; lia).
  split; [exact HN|].
  exact (proj1 (proj2 (static_driver_full_range SingleWorker
                         false false cycle4 None defaults countVisit HN))).
Defined.

(** C2 on the 4-cycle, for the batch that inserts [1 -> 3]. *)
Lemma dynamic_driver_affected_predicate_witness :
  order (transpose chord4) ≠ 0%nat ∧
  pagerankBasicDynamicTraversal SingleWorker false false ring4 cycle4 chord4
      (transpose chord4) [] insert13 (Some skewed) defaults countVisit =
    (out ← runLoop SingleWorker false false (transpose chord4) (Some skewed)
             defaults (vertexKeys (transpose chord4)) 0%nat
             (order (transpose chord4)) countVisit
             (affectedAt
                (compressContainer chord4
                   (pagerankAffectedVerticesTraversal ring4 [] insert13)
                   (vertexKeys (transpose chord4))));
     Some (runResult (transpose chord4) (vertexKeys (transpose chord4)) out)).
Proof.
  assert (order (transpose chord4) ≠ 0%nat) as HN by (vm_compute; lia).
  split; [exact HN|].
  exact (proj1 (proj2 (proj2 (dynamic_driver_affected_predicate SingleWorker
                                false false ring4 cycle4 chord4
                                (transpose chord4) [] insert13 (Some skewed)
                                defaults countVisit HN)))).
Defined.

(** The runs above, evaluated. *)
Example run_to_tolerance :
  fst <$> loop4 500 countVisit (start SingleWorker) = Some 140.
Proof. vm_compute. reflexivity. Qed.

Example run_to_cap :
  fst <$> loop4 3 countVisit (start SingleWorker) = Some 3.
Proof. vm_compute. reflexivity. Qed.

Example run_crash_in_first_iteration :
  fst <$> loop4 500 (crashAt 2%nat) (start SingleWorker) = Some 1.
Proof. vm_compute. reflexivity. Qed.

Example run_static_uniform :
  pagerankBasic SingleWorker false false cycle4 None defaults countVisit =
  Some {| ranks := [0.25; 0.25; 0.25; 0.25]%float; iterations := 1 |}.
Proof. vm_compute. reflexivity. Qed.

Example run_dynamic_marks :
  compressContainer chord4
    (pagerankAffectedVerticesTraversal ring4 [] insert13)
    (vertexKeys (transpose chord4)) = [true; true; true; true] ∧
  compressContainer pairs4
    (pagerankAffectedVerticesTraversal pairs4 [] [(3, 2)]%nat)
    (vertexKeys (transpose pairs4)) = [false; false; true; true].
Proof. split; vm_compute; reflexivity. Qed.

Example run_dynamic_skewed :
  iterations <$>
    pagerankBasicDynamicTraversal MultiWorker false true ring4 cycle4 chord4
      (transpose chord4) [] insert13 (Some skewed) defaults countVisit
  = Some 79.
Proof. vm_compute. reflexivity. Qed.

End ReferenceRuns.

(** * Further properties of the loops *)

(** ** The loop skeleton, continued *)
Section WhileMore.
Context {St : Type}.
Variable body : St → option (St * bool).

Lemma Run_mono (L l : Z) (st : St) (l' : Z) (st' : St) :
  Run body L l st l' st' → l ≤ l'.
Proof. induction 1; lia. Qed.

(** A run that left by a [break] below its cap is a run under any cap it
    fits in. *)
Lemma Run_raise_cap (L L' l : Z) (st : St) (l' : Z) (st' : St) :
  Run body L l st l' st' → l' < L → l' ≤ L' → Run body L' l st l' st'.
Proof.
  induction 1 as [l st Hge|l st st' Hlt Hb|l st st1 l' st' Hlt Hb HR IH];
    intros HL HL'.
  - lia.
  - apply run_break; [lia|done].
  - apply Run_mono in HR as Hmono.
    eapply run_continue; [lia|done|]. by apply IH.
Qed.

(** Under a lower cap the run is cut short at the cap. *)
Lemma Run_lower_cap (L L' l : Z) (st : St) (l' : Z) (st' : St) :
  Run body L l st l' st' → l ≤ L' ≤ l' →
  ∃ st'', Run body L' l st L' st'' ∧
          iterate body (Z.to_nat (L' - l)) st = Some st''.
Proof.
  induction 1 as [l st Hge|l st st' Hlt Hb|l st st1 l' st' Hlt Hb HR IH];
    intros HL'.
  - assert (L' = l) as -> by lia. exists st. split; [apply run_exit; lia|].
    by rewrite Z.sub_diag.
  - destruct (decide (L' = l)) as [->|Hne].
    + exists st. split; [apply run_exit; lia|]. by rewrite Z.sub_diag.
    + assert (L' = l + 1) as -> by lia. exists st'.
      split; [apply run_break; [lia|done]|].
      replace (Z.to_nat (l + 1 - l)) with 1%nat by lia. simpl. by rewrite Hb.
  - destruct (decide (L' = l)) as [->|Hne].
    + exists st. split; [apply run_exit; lia|]. by rewrite Z.sub_diag.
    + destruct (IH ltac:(lia)) as (st'' & HR' & Hit). exists st''.
      split; [eapply run_continue; [lia|done|done]|].
      replace (Z.to_nat (L' - l)) with (S (Z.to_nat (L' - (l + 1)))) by lia.
      simpl. by rewrite Hb.
Qed.

(** What every iteration preserves, the iterations of a run preserve. *)
Lemma iterate_preserves (R : St → St → Prop) (k : nat) :
  (∀ st, R st st) → (∀ st1 st2 st3, R st1 st2 → R st2 st3 → R st1 st3) →
  (∀ st st' b, body st = Some (st', b) → R st st') →
  ∀ st st', iterate body k st = Some st' → R st st'.
Proof.
  intros Hrefl Htrans Hstep. induction k as [|k IH]; intros st st'; simpl.
  - by intros [= <-].
  - destruct (body st) as [[st1 b]|] eqn:Hb; [|done]. simpl. intros Hit.
    eapply Htrans; [by eapply Hstep|by apply IH].
Qed.

End WhileMore.

(** Two loops whose iterations agree on the states of an invariant return
    the same. *)
Lemma whileLt_agree {St : Type} (body1 body2 : St → option (St * bool))
    (ok : St → Prop) (L : Z) :
  (∀ st, ok st → body1 st = body2 st) →
  (∀ st st' b, ok st → body1 st = Some (st', b) → ok st') →
  ∀ l st, ok st → whileLt body1 L l st = whileLt body2 L l st.
Proof.
  intros Heq Hok l st. remember (Z.to_nat (L - l)) as m eqn:Hm.
  revert l st Hm. induction m as [m IH] using lt_wf_ind. intros l st Hm Hst.
  rewrite !whileLt_step. destruct (decide (l < L)) as [Hlt|Hge]; [|done].
  rewrite <- (Heq st Hst).
  destruct (body1 st) as [[st1 []]|] eqn:Hb; [done| |done].
  eapply (IH (Z.to_nat (L - (l + 1)))); [lia|done|by eapply Hok].
Qed.

(** A loop simulated step by step is simulated as a whole. *)
Lemma whileLt_simulates {St1 St2 : Type}
    (body1 : St1 → option (St1 * bool)) (body2 : St2 → option (St2 * bool))
    (R : St1 → St2 → Prop) (L : Z) :
  (∀ s1 s2 s1' b, R s1 s2 → body1 s1 = Some (s1', b) →
     ∃ s2', body2 s2 = Some (s2', b) ∧ R s1' s2') →
  ∀ l s1 s2 l' s1', R s1 s2 → whileLt body1 L l s1 = Some (l', s1') →
    ∃ s2', whileLt body2 L l s2 = Some (l', s2') ∧ R s1' s2'.
Proof.
  intros Hsim l s1 s2 l' s1' HR Hw. apply whileLt_Run in Hw.
  revert s2 HR.
  induction Hw as [l s1 Hge|l s1 s1' Hlt Hb|l s1 s1m l' s1' Hlt Hb _ IH];
    intros s2 HR.
  - exists s2. split; [|done]. apply Run_whileLt. by apply run_exit.
  - destruct (Hsim _ _ _ _ HR Hb) as (s2' & Hb2 & HR').
    exists s2'. split; [|done]. apply Run_whileLt. by apply run_break.
  - destruct (Hsim _ _ _ _ HR Hb) as (s2m & Hb2 & HRm).
    destruct (IH s2m HRm) as (s2' & Hw2 & HR').
    exists s2'. split; [|done]. apply Run_whileLt.
    eapply run_continue; [done..|]. by apply whileLt_Run.
Qed.

(** ** What the loops write *)
Section LoopFrame.
Context {V ThreadInfo FV : Type}.
Context `{!Scalar V, !Worker ThreadInfo, !RankServices V ThreadInfo FV}.
Variables (s : Strategy) (ASYNC DEAD : bool) (e : list Z).
Variables (a r c : ref) (f : list V) (xv : list nat) (xe vdeg : list K).
Variables (N : K) (P E : V) (L EF : Z) (i n : K) (fv : FV) (fa : K → bool).

Abbreviation State := (LoopState V ThreadInfo).

(** The buffers an update leaves, by what the propagator produced. *)
Lemma update_buffers (st stu : State) (el : V) :
  update s DEAD a r c f xv xe vdeg N P EF i n fv fa st = Some (stu, el) →
  ∃ a',
    newRanks s DEAD a r c xv xe vdeg N P i n fv fa st = Some a' ∧
    bufs stu =
      <[c := match s with
             | SingleWorker => multiplyValuesW
             | MultiWorker => multiplyValuesOmpW
             end (<[a := a']> (bufs st) c) (<[a := a']> (bufs st) a) f i n]>
        (<[a := a']> (bufs st)).
Proof.
  destruct s; simpl.
  - unfold seqUpdate, seqUpdateWith.
    destruct (seqPropagate _ _ _ _ _ _ _ _ _ _) as [[a' t']|] eqn:Hp;
      simpl; [|done].
    intros [= <- <-]. by exists a'.
  - unfold ompUpdate, ompUpdateWith, ompPropagate. simpl.
    destruct (pagerankCalculateRanksOmp _ _ _ _ _ _ _ _ _ _) as [a' t'].
    intros [= <- <-]. by exists a'.
Qed.

Lemma step_frame (st st' : State) (b : bool) (p : ref) :
  step s ASYNC DEAD a r c f xv xe vdeg N P E EF i n fv fa st = Some (st', b) →
  p ≠ a → p ≠ c → ASYNC = true ∨ p ≠ r → bufs st' p = bufs st p.
Proof.
  intros Hstep Hpa Hpc Hpr.
  eapply step_inv in Hstep as (el & failed & Hit & _).
  eapply iteration_inv in Hit as (stu & Hu & ->).
  apply update_buffers in Hu as (a' & _ & Hbufs).
  assert (bufs stu p = bufs st p) as <-.
  { rewrite Hbufs. by rewrite !fn_lookup_insert_ne. }
  unfold exchange. destruct ASYNC; [done|]. simpl.
  destruct Hpr as [?|Hpr]; [done|]. by apply swap_lookup_ne.
Qed.

Lemma loop_frame (st : State) (l : Z) (st' : State) (p : ref) :
  pagerankBasicLoop s ASYNC DEAD e a r c f xv xe vdeg N P E L EF i n fv fa st
    = Some (l, st') →
  p ≠ a → p ≠ c → ASYNC = true ∨ p ≠ r → bufs st' p = bufs st p.
Proof.
  intros (k & _ & Hk)%loop_stateAfter Hpa Hpc Hpr.
  eapply (iterate_preserves _ (λ st1 st2 : State, bufs st2 p = bufs st1 p));
    [done|by intros ? ? ? <- <-| |exact Hk].
  intros st1 st2 b Hstep. by eapply step_frame.
Qed.

(** The single-worker iteration writes the first descriptor only. *)
Lemma seqStep_threads (st st' : State) (b : bool) :
  seqStep ASYNC DEAD a r c f xv xe vdeg N P E EF i n fv fa st = Some (st', b) →
  length (threads st') = length (threads st) ∧
  ∀ k : nat, k ≠ 0%nat → threads st' !! k = threads st !! k.
Proof.
  intros Hstep.
  eapply (step_inv SingleWorker) in Hstep as (el & failed & Hit & _).
  eapply (iteration_inv SingleWorker) in Hit as (stu & Hu & ->).
  rewrite exchange_threads. simpl in Hu.
  unfold seqUpdate, seqUpdateWith in Hu.
  destruct (seqPropagate _ _ _ _ _ _ _ _ _ _) as [[a' t']|]; [|done].
  simpl in Hu. injection Hu as <- _. simpl. split.
  - apply length_insert.
  - intros k Hk. by apply list_lookup_insert_ne.
Qed.

End LoopFrame.

(** ** Properties of the two loops *)
Section LoopMore.
Context {V ThreadInfo FV : Type}.
Context `{!Scalar V, !Worker ThreadInfo, !RankServices V ThreadInfo FV}.
Variables (s : Strategy) (ASYNC DEAD : bool) (e : list Z).
Variables (a r c : ref) (f : list V) (xv : list nat) (xe vdeg : list K).
Variables (N : K) (P E : V) (EF : Z) (i n : K) (fv : FV) (fa : K → bool).

Abbreviation State := (LoopState V ThreadInfo).

(** X1: the loop writes no vector but those behind [a], [r] and [c]: any
    other vector has, when the loop returns, the contents it had when the
    loop was entered. *)
Theorem loop_writes_only_its_buffers (L : Z) (st : State) (l : Z)
    (st' : State) (p : ref) :
  pagerankBasicLoop s ASYNC DEAD e a r c f xv xe vdeg N P E L EF i n fv fa st
    = Some (l, st') →
  p ≠ a → p ≠ r → p ≠ c → bufs st' p = bufs st p.
Proof. intros Hloop Hpa Hpr Hpc. eapply loop_frame; eauto. Qed.

(** X2: in asynchronous mode the loop never writes the vector behind [r]
    when it is neither the vector behind [a] nor the one behind [c]: the
    previous ranks stay what they were when the loop was entered, however
    many iterations run. *)
Theorem async_loop_keeps_previous_buffer (L : Z) (st : State) (l : Z)
    (st' : State) :
  pagerankBasicLoop s true DEAD e a r c f xv xe vdeg N P E L EF i n fv fa st
    = Some (l, st') →
  r ≠ a → r ≠ c → bufs st' r = bufs st r.
Proof. intros Hloop Hra Hrc. eapply loop_frame; eauto. Qed.

(** X3: the single-worker loop keeps the number of worker descriptors and
    leaves every descriptor but the first as it was. *)
Theorem seq_loop_touches_first_worker_only (L : Z) (st : State) (l : Z)
    (st' : State) :
  pagerankBasicSeqLoop ASYNC DEAD e a r c f xv xe vdeg N P E L EF i n fv fa st
    = Some (l, st') →
  length (threads st') = length (threads st) ∧
  ∀ k : nat, k ≠ 0%nat → threads st' !! k = threads st !! k.
Proof.
  intros Hloop.
  apply (loop_stateAfter SingleWorker) in Hloop as (k & _ & Hk).
  eapply (iterate_preserves _
            (λ st1 st2 : State,
               length (threads st2) = length (threads st1) ∧
               ∀ k : nat, k ≠ 0%nat → threads st2 !! k = threads st1 !! k));
    [done| | |exact Hk].
  - intros st1 st2 st3 [Hl12 Ht12] [Hl23 Ht23]. split; [congruence|].
    intros j Hj. by rewrite Ht23, Ht12.
  - intros st1 st2 b Hstep. by eapply seqStep_threads.
Qed.

(** X4: with an iteration cap of 0 or less the loop performs no iteration:
    it returns the count 0 and the state it was given, reading no worker
    descriptor (none is needed). *)
Theorem loop_without_iterations (L : Z) (st : State) :
  L ≤ 0 →
  pagerankBasicLoop s ASYNC DEAD e a r c f xv xe vdeg N P E L EF i n fv fa st
    = Some (0, st).
Proof.
  intros HL. destruct s; simpl;
    unfold pagerankBasicSeqLoop, pagerankBasicOmpLoop;
    rewrite whileLt_step; by rewrite decide_False by lia.
Qed.

(** X5: a run that stops below its cap does not depend on the cap: under
    any cap at or above the count it returned, the loop returns the same
    count and the same state. *)
Theorem loop_cap_irrelevant_after_stop (L L' : Z) (st : State) (l : Z)
    (st' : State) :
  pagerankBasicLoop s ASYNC DEAD e a r c f xv xe vdeg N P E L EF i n fv fa st
    = Some (l, st') →
  l < L → l ≤ L' →
  pagerankBasicLoop s ASYNC DEAD e a r c f xv xe vdeg N P E L' EF i n fv fa st
    = Some (l, st').
Proof.
  intros Hloop HL HL'. apply loop_Run in Hloop. apply loop_Run.
  by eapply Run_raise_cap.
Qed.

(** X6: a run under a lower cap is a prefix of the run under a higher one:
    if the loop returns [l] under some cap, then under a cap [L'] between 0
    and [l] it returns [L'] and the state the first [L'] iterations leave. *)
Theorem loop_lower_cap_is_prefix (L L' : Z) (st : State) (l : Z)
    (st' : State) :
  pagerankBasicLoop s ASYNC DEAD e a r c f xv xe vdeg N P E L EF i n fv fa st
    = Some (l, st') →
  0 ≤ L' ≤ l →
  ∃ st'',
    pagerankBasicLoop s ASYNC DEAD e a r c f xv xe vdeg N P E L' EF i n fv fa
      st = Some (L', st'') ∧
    stateAfter s ASYNC DEAD a r c f xv xe vdeg N P E EF i n fv fa
      (Z.to_nat L') st = Some st''.
Proof.
  intros Hloop HL'. apply loop_Run in Hloop.
  eapply Run_lower_cap in Hloop as (st'' & HR & Hit); [|exact HL'].
  exists st''. split; [by apply loop_Run|].
  by rewrite Z.sub_0_r in Hit.
Qed.

(** X7: when [a] and [r] are the same vector, the error of an iteration
    compares that vector with itself; if this error of the first iteration
    is below the tolerance, the loop returns after exactly one iteration,
    whatever the ranks were. *)
Theorem aliased_buffers_stop_after_one_iteration (L : Z) (st stu : State)
    (el : V) :
  1 ≤ L →
  update s DEAD a a c f xv xe vdeg N P EF i n fv fa st = Some (stu, el) →
  Vltb (match s with
        | SingleWorker => pagerankError
        | MultiWorker => pagerankErrorOmp
        end (bufs stu a) (bufs stu a) EF i n) E = true →
  pagerankBasicLoop s ASYNC DEAD e a a c f xv xe vdeg N P E L EF i n fv fa st
    = Some (1, exchange ASYNC a a stu).
Proof.
  intros HL Hu Hel.
  pose proof Hu as (a' & _ & _ & Heq)%update_inv. rewrite <- Heq in Hel.
  assert (iteration s ASYNC DEAD a a c f xv xe vdeg N P EF i n fv fa st
          = Some (exchange ASYNC a a stu, el)) as Hit.
  { destruct s; simpl in *; unfold seqIteration, ompIteration;
      by rewrite Hu. }
  pose proof Hit as Hready. eapply iteration_ready in Hready.
  apply ready_failed in Hready as [failed Hf].
  assert (step s ASYNC DEAD a a c f xv xe vdeg N P E EF i n fv fa st
          = Some (exchange ASYNC a a stu, true)) as Hstep.
  { apply step_inv. exists el, failed. by rewrite Hel. }
  eapply (loop_Run s ASYNC DEAD e). apply (run_break _ _ 0); [lia|done].
Qed.

(** X8: in synchronous mode, with three different vectors behind [a], [r]
    and [c], every iteration the loop performs leaves in [r] the ranks its
    propagator produced, in [a] the ranks it started from (those of [r]),
    in [c] the rescaling of the produced ranks, and its error compares the
    produced ranks with the ranks it started from. *)
Theorem synchronous_iteration_contents (L : Z) (st : State) (l : Z)
    (st' : State) (j : nat) :
  pagerankBasicLoop s false DEAD e a r c f xv xe vdeg N P E L EF i n fv fa st
    = Some (l, st') →
  a ≠ r → a ≠ c → r ≠ c → 1 ≤ Z.of_nat j ≤ l →
  ∃ stp stj a' el,
    stateAfter s false DEAD a r c f xv xe vdeg N P E EF i n fv fa (j - 1) st
      = Some stp ∧
    stateAfter s false DEAD a r c f xv xe vdeg N P E EF i n fv fa j st
      = Some stj ∧
    newRanks s DEAD a r c xv xe vdeg N P i n fv fa stp = Some a' ∧
    errorAt s false DEAD a r c f xv xe vdeg N P E EF i n fv fa j st
      = Some el ∧
    bufs stj r = a' ∧
    bufs stj a = bufs stp r ∧
    bufs stj c = match s with
                 | SingleWorker => multiplyValuesW
                 | MultiWorker => multiplyValuesOmpW
                 end (bufs stp c) a' f i n ∧
    el = match s with
         | SingleWorker => pagerankError
         | MultiWorker => pagerankErrorOmp
         end a' (bufs stp r) EF i n.
Proof.
  intros Hloop Har Hac Hrc Hj.
  eapply loop_iteration_at in Hloop
    as (stp & stj & el & _ & Hstp & Hit & Hstj & _); [|exact Hj].
  pose proof Hit as (stu & Hu & ->)%iteration_inv.
  pose proof Hu as (a' & Hnew & Hbufs)%update_buffers.
  pose proof Hu as (a'' & _ & _ & Hel)%update_inv.
  assert (bufs stu a = a') as Ha.
  { rewrite Hbufs. by rewrite fn_lookup_insert_ne, fn_lookup_insert. }
  assert (bufs stu r = bufs stp r) as Hr.
  { rewrite Hbufs. by rewrite !fn_lookup_insert_ne. }
  assert (bufs stu c = match s with
                       | SingleWorker => multiplyValuesW
                       | MultiWorker => multiplyValuesOmpW
                       end (bufs stp c) a' f i n) as Hc.
  { rewrite Hbufs. rewrite fn_lookup_insert.
    by rewrite fn_lookup_insert_ne, fn_lookup_insert. }
  exists stp, (exchange false a r stu), a', el.
  do 3 (split; [done|]). split.
  { destruct j as [|j]; [lia|]. unfold errorAt.
    replace (S j - 1)%nat with j in Hstp by lia. rewrite Hstp. simpl.
    by rewrite Hit. }
  unfold exchange. simpl.
  rewrite swap_lookup_r, swap_lookup_a, swap_lookup_ne by done.
  rewrite Ha, Hr in Hel. by rewrite Ha, Hr, Hc.
Qed.

End LoopMore.

(** ** The single-worker loop and the multi-worker loop *)
Section TwoLoops.
Context {V ThreadInfo FV : Type}.
Context `{!Scalar V, !Worker ThreadInfo, !RankServices V ThreadInfo FV}.
Variables (ASYNC DEAD : bool) (e : list Z).
Variables (a r c : ref) (f : list V) (xv : list nat) (xe vdeg : list K).
Variables (N : K) (P E : V) (L EF : Z) (i n : K) (fv : FV) (fa : K → bool).

Abbreviation State := (LoopState V ThreadInfo).

(** States with the same buffers and the same first descriptor. *)
Lemma seqStep_first_worker (s1 s2 s1' : State) (b : bool) :
  bufs s2 = bufs s1 ∧ threads s2 !! 0%nat = threads s1 !! 0%nat →
  seqStep ASYNC DEAD a r c f xv xe vdeg N P E EF i n fv fa s1 = Some (s1', b) →
  ∃ s2',
    seqStep ASYNC DEAD a r c f xv xe vdeg N P E EF i n fv fa s2
      = Some (s2', b) ∧
    bufs s2' = bufs s1' ∧ threads s2' !! 0%nat = threads s1' !! 0%nat.
Proof.
  intros [Hb Ht].
  unfold seqStep, seqIteration, seqUpdate, seqUpdateWith, seqPropagate, seqC0.
  rewrite Hb, Ht.
  destruct (threads s1 !! 0%nat) as [t0|] eqn:Ht0; simpl; [|done].
  destruct (pagerankCalculateRanks _ _ _ _ _ _ _ _ _ _) as [a' t0']. simpl.
  unfold seqStop, seqCrashed. rewrite !exchange_threads. simpl.
  rewrite !list_lookup_insert_eq by (by eapply lookup_lt_Some).
  simpl. destruct (Vltb _ E); simpl; intros [= <- <-];
    (eexists; split; [done|]); rewrite !exchange_threads; simpl;
    rewrite !list_lookup_insert_eq by (by eapply lookup_lt_Some);
    (split; [|done]); unfold exchange; by destruct ASYNC.
Qed.

(** X9: the single-worker loop reads the worker descriptors through the
    first one only: from two states with the same buffers and the same
    first descriptor it returns the same count and the same buffers, so
    the failure flag of another worker never stops it. *)
Theorem seq_loop_reads_first_worker_only (st1 st2 : State) (l : Z)
    (st1' : State) :
  bufs st2 = bufs st1 → threads st2 !! 0%nat = threads st1 !! 0%nat →
  pagerankBasicSeqLoop ASYNC DEAD e a r c f xv xe vdeg N P E L EF i n fv fa
    st1 = Some (l, st1') →
  ∃ st2',
    pagerankBasicSeqLoop ASYNC DEAD e a r c f xv xe vdeg N P E L EF i n fv fa
      st2 = Some (l, st2') ∧
    bufs st2' = bufs st1' ∧ threads st2' !! 0%nat = threads st1' !! 0%nat.
Proof.
  intros Hb Ht Hloop. unfold pagerankBasicSeqLoop in *.
  eapply (whileLt_simulates _ _
            (λ s1 s2 : State,
               bufs s2 = bufs s1 ∧
               threads s2 !! 0%nat = threads s1 !! 0%nat)) in Hloop;
    [exact Hloop| |done].
  intros s1 s2 s1' b HR Hstep. by eapply seqStep_first_worker.
Qed.

Lemma crashedCount_one (t : ThreadInfo) :
  bool_decide (threadInfosCrashedCount [t] > 0) = crashed t.
Proof.
  unfold threadInfosCrashedCount. rewrite filter_cons, filter_nil.
  destruct (crashed t); by case_decide.
Qed.

(** X10: with one worker descriptor, and multi-worker services that return
    what the single-worker services return, the multi-worker loop returns
    what the single-worker loop returns: the same count and the same
    state. *)
Theorem omp_loop_with_one_worker (st : State) (t : ThreadInfo) :
  (∀ vr vd p m, pagerankTeleportOmp vr vd p m = pagerankTeleport vr vd p m) →
  (∀ va vc ov oe C0 j m w g h,
     pagerankCalculateRanksOmp va vc ov oe C0 j m [w] g h =
     ((pagerankCalculateRanks va vc ov oe C0 j m w g h).1,
      [(pagerankCalculateRanks va vc ov oe C0 j m w g h).2])) →
  (∀ vc va vf j m, multiplyValuesOmpW vc va vf j m = multiplyValuesW vc va vf j m) →
  (∀ va vr ef j m, pagerankErrorOmp va vr ef j m = pagerankError va vr ef j m) →
  threads st = [t] →
  pagerankBasicOmpLoop ASYNC DEAD e a r c f xv xe vdeg N P E L EF i n fv fa st
  = pagerankBasicSeqLoop ASYNC DEAD e a r c f xv xe vdeg N P E L EF i n fv fa
      st.
Proof.
  intros Htel Hcalc Hmul Herr Ht. unfold pagerankBasicOmpLoop, pagerankBasicSeqLoop.
  apply (whileLt_agree _ _ (λ st : State, ∃ w, threads st = [w]));
    [| |by exists t].
  - intros st0 [w Hw].
    unfold ompStep, ompIteration, ompUpdate, ompUpdateWith, ompPropagate,
      ompC0, seqStep, seqIteration, seqUpdate, seqUpdateWith, seqPropagate,
      seqC0.
    rewrite Hw, Hcalc, Htel. simpl.
    destruct (pagerankCalculateRanks _ _ _ _ _ _ _ _ _ _) as [a' w'].
    simpl. rewrite Hmul, Herr.
    unfold ompStop, seqStop, ompCrashed, seqCrashed.
    rewrite !exchange_threads. simpl. by rewrite crashedCount_one.
  - intros st0 st0' b [w Hw] Hstep.
    eapply (step_inv MultiWorker) in Hstep as (el & failed & Hit & _).
    eapply (iteration_inv MultiWorker) in Hit as (stu & Hu & ->).
    rewrite exchange_threads. simpl in Hu.
    unfold ompUpdate, ompUpdateWith, ompPropagate in Hu.
    rewrite Hw, Hcalc in Hu. simpl in Hu. injection Hu as <- _. simpl.
    by eexists.
Qed.

End TwoLoops.

(** ** Runs in two parts *)
Section WhileResume.
Context {St : Type}.
Variable body : St → option (St * bool).

(** Moving the counter and the cap by the same amount moves the count. *)
Lemma whileLt_shift (L l d : Z) (st : St) :
  whileLt body (L + d) (l + d) st =
  (λ out, (out.1 + d, out.2)) <$> whileLt body L l st.
Proof.
  remember (Z.to_nat (L - l)) as m eqn:Hm.
  revert l st Hm. induction m as [m IH] using lt_wf_ind. intros l st Hm.
  rewrite (whileLt_step body (L + d)), (whileLt_step body L).
  destruct (decide (l < L)) as [Hlt|Hge].
  - rewrite decide_True by lia.
    destruct (body st) as [[st1 []]|]; simpl; [f_equal; f_equal; lia| |done].
    replace (l + d + 1) with (l + 1 + d) by lia.
    eapply (IH (Z.to_nat (L - (l + 1)))); [lia|done].
  - by rewrite decide_False by lia.
Qed.

(** Iterations without a [break], below the cap, can be skipped over. *)
Lemma whileLt_skip (L : Z) (k : nat) :
  ∀ l st st',
    iterate body k st = Some st' →
    (∀ j : nat, (1 ≤ j ≤ k)%nat → breakAt body j st = Some false) →
    l + Z.of_nat k ≤ L →
    whileLt body L l st = whileLt body L (l + Z.of_nat k) st'.
Proof.
  induction k as [|k IH]; intros l st st' Hit Hbr HL.
  - injection Hit as <-. f_equal. lia.
  - simpl in Hit. destruct (body st) as [[st1 b]|] eqn:Hb; [|done].
    simpl in Hit. pose proof (Hbr 1%nat ltac:(lia)) as Hb1.
    simpl in Hb1. rewrite Hb in Hb1. simpl in Hb1. injection Hb1 as ->.
    rewrite whileLt_step, decide_True, Hb by lia.
    replace (l + Z.of_nat (S k)) with (l + 1 + Z.of_nat k) by lia.
    apply IH; [done| |lia].
    intros j Hj. specialize (Hbr (S j) ltac:(lia)).
    destruct j as [|j]; [lia|].
    change (breakAt body (S (S j)) st) with
      (st' ← (it ← body st; iterate body j it.1); it ← body st'; Some it.2)
      in Hbr.
    by rewrite Hb in Hbr.
Qed.

End WhileResume.

Section LoopResume.
Context {V ThreadInfo FV : Type}.
Context `{!Scalar V, !Worker ThreadInfo, !RankServices V ThreadInfo FV}.
Variables (s : Strategy) (ASYNC DEAD : bool) (e : list Z).
Variables (a r c : ref) (f : list V) (xv : list nat) (xe vdeg : list K).
Variables (N : K) (P E : V) (EF : Z) (i n : K) (fv : FV) (fa : K → bool).

Abbreviation State := (LoopState V ThreadInfo).

(** X11: a run can be taken up where it reached its cap.  If the loop
    returns at its cap [L] and neither [break] test held at the end of
    iteration [L], the loop under the cap [L + L2] returns what the loop
    under the cap [L2] returns from the state reached, with [L] added to
    the count. *)
Theorem loop_resumes_at_cap (L L2 : Z) (st st' : State) (el : V) :
  0 ≤ L2 →
  pagerankBasicLoop s ASYNC DEAD e a r c f xv xe vdeg N P E L EF i n fv fa st
    = Some (L, st') →
  errorAt s ASYNC DEAD a r c f xv xe vdeg N P E EF i n fv fa (Z.to_nat L) st
    = Some el →
  Vltb el E = false →
  failedAfter s ASYNC DEAD a r c f xv xe vdeg N P E EF i n fv fa (Z.to_nat L)
    st = Some false →
  pagerankBasicLoop s ASYNC DEAD e a r c f xv xe vdeg N P E (L + L2) EF i n
    fv fa st =
  (λ out, (out.1 + L, out.2)) <$>
    pagerankBasicLoop s ASYNC DEAD e a r c f xv xe vdeg N P E L2 EF i n
      fv fa st'.
Proof.
  intros HL2 Hloop Hel Hlt Hf.
  apply loop_Run, Run_iterate in Hloop as (k & Hk & Hit & _ & _ & Hbr).
  assert (L = Z.of_nat k) as -> by lia. rewrite Nat2Z.id in Hel, Hf.
  assert (∀ j : nat, (1 ≤ j ≤ k)%nat →
            breakAt (step s ASYNC DEAD a r c f xv xe vdeg N P E EF i n fv fa)
              j st = Some false) as Hnone.
  { intros j Hj. destruct (Hbr j Hj) as (b & Hb & Hiff). rewrite Hb. f_equal.
    destruct (decide (j = k)) as [->|Hne].
    - eapply breakAt_inv in Hb as (el' & failed & Hel' & Hf' & ->).
      rewrite Hel in Hel'. rewrite Hf in Hf'.
      injection Hel' as <-. injection Hf' as <-. by rewrite Hlt.
    - destruct b; [|done]. exfalso. apply Hne, Hiff. by left. }
  assert (∀ cap st0,
            pagerankBasicLoop s ASYNC DEAD e a r c f xv xe vdeg N P E cap EF
              i n fv fa st0 =
            whileLt (step s ASYNC DEAD a r c f xv xe vdeg N P E EF i n fv fa)
              cap 0 st0) as Hdef by (by destruct s).
  rewrite !Hdef.
  rewrite (whileLt_skip _ (Z.of_nat k + L2) k 0 st st' Hit Hnone) by lia.
  replace (Z.of_nat k + L2) with (L2 + Z.of_nat k) by lia.
  apply whileLt_shift.
Qed.

End LoopResume.

(** ** Further runs of the reference instance *)
Module ReferenceMoreRuns.
Import Reference ReferenceMore.
#[local] Set Warnings "-inexact-float".

Lemma loop4_three :
  loop4 3 countVisit (start SingleWorker) = Some (3, after3).
Proof. vm_compute. reflexivity. Qed.

(** X1 on the 4-cycle: the vector of identity 7 is none of the loop's. *)
Lemma loop_writes_only_its_buffers_witness :
  loop4 3 countVisit (start SingleWorker) = Some (3, after3) ∧
  7%nat ≠ bufA ∧ 7%nat ≠ bufR ∧ 7%nat ≠ bufC ∧
  bufs after3 7%nat = bufs (start SingleWorker) 7%nat.
Proof.
  assert (7%nat ≠ bufA) as HA by (vm_compute; lia).
  assert (7%nat ≠ bufR) as HR by (vm_compute; lia).
  assert (7%nat ≠ bufC) as HC by (vm_compute; lia).
  do 4 (split; [first [exact loop4_three|done]|]).
  exact (loop_writes_only_its_buffers SingleWorker false true [] bufA bufR
           bufC scale4 offsets4 targets4 degrees4 4%nat 0.85%float
           1e-10%float 1 0%nat 4%nat countVisit (λ _, true) 3
           (start SingleWorker) 3 after3 7%nat loop4_three HA HR HC).
Defined.

(** X2 on the 4-cycle: three asynchronous iterations with separate
    vectors. *)
Lemma async_loop_keeps_previous_buffer_witness :
  asyncLoop4 3 countVisit (start SingleWorker) = Some (3, asyncAfter3) ∧
  bufR ≠ bufA ∧ bufR ≠ bufC ∧
  bufs asyncAfter3 bufR = bufs (start SingleWorker) bufR.
Proof.
  assert (asyncLoop4 3 countVisit (start SingleWorker)
          = Some (3, asyncAfter3)) as Hloop by (vm_compute; reflexivity).
  assert (bufR ≠ bufA) as HA by (vm_compute; lia).
  assert (bufR ≠ bufC) as HC by (vm_compute; lia).
  do 3 (split; [done|]).
  exact (async_loop_keeps_previous_buffer SingleWorker true [] bufA bufR bufC
           scale4 offsets4 targets4 degrees4 4%nat 0.85%float 1e-10%float 1
           0%nat 4%nat countVisit (λ _, true) 3 (start SingleWorker) 3
           asyncAfter3 Hloop HA HC).
Defined.

(** X3 on the 4-cycle, with a second descriptor behind the first. *)
Lemma seq_loop_touches_first_worker_only_witness :
  loop4 3 countVisit pairStart = Some (3, pairAfter3) ∧
  length (threads pairAfter3) = length (threads pairStart) ∧
  ∀ k : nat, k ≠ 0%nat → threads pairAfter3 !! k = threads pairStart !! k.
Proof.
  assert (loop4 3 countVisit pairStart = Some (3, pairAfter3)) as Hloop
    by (vm_compute; reflexivity).
  split; [exact Hloop|].
  exact (seq_loop_touches_first_worker_only false true [] bufA bufR bufC
           scale4 offsets4 targets4 degrees4 4%nat 0.85%float 1e-10%float 1
           0%nat 4%nat countVisit (λ _, true) 3 pairStart 3 pairAfter3 Hloop).
Defined.

(** X4 on the 4-cycle: cap 0, and no worker descriptor at all. *)
Lemma loop_without_iterations_witness :
  0 ≤ 0 ∧ loop4 0 countVisit noWorkers = Some (0, noWorkers).
Proof.
  split; [lia|].
  apply (loop_without_iterations SingleWorker false true [] bufA bufR bufC
           scale4 offsets4 targets4 degrees4 4%nat 0.85%float 1e-10%float 1
           0%nat 4%nat countVisit (λ _, true) 0 noWorkers).
  lia.
Defined.

(** X5 on the 4-cycle: the run the callback stops after one iteration,
    under the caps 500 and 7. *)
Lemma loop_cap_irrelevant_after_stop_witness :
  loop4 500 (crashAt 2%nat) (start SingleWorker) = Some (1, crashAfter1) ∧
  1 < 500 ∧ 1 ≤ 7 ∧
  loop4 7 (crashAt 2%nat) (start SingleWorker) = Some (1, crashAfter1).
Proof.
  assert (loop4 500 (crashAt 2%nat) (start SingleWorker)
          = Some (1, crashAfter1)) as Hloop by (vm_compute; reflexivity).
  split; [exact Hloop|]. split; [lia|]. split; [lia|].
  apply (loop_cap_irrelevant_after_stop SingleWorker false true [] bufA bufR
           bufC scale4 offsets4 targets4 degrees4 4%nat 0.85%float
           1e-10%float 1 0%nat 4%nat (crashAt 2%nat) (λ _, true) 500 7
           (start SingleWorker) 1 crashAfter1 Hloop); lia.
Defined.

(** X6 on the 4-cycle: the cap 2 against a run of three iterations. *)
Lemma loop_lower_cap_is_prefix_witness :
  loop4 3 countVisit (start SingleWorker) = Some (3, after3) ∧
  0 ≤ 2 ≤ 3 ∧
  ∃ st'' : LoopState float ThreadInfo,
    loop4 2 countVisit (start SingleWorker) = Some (2, st'').
Proof.
  split; [exact loop4_three|]. split; [lia|].
  destruct (loop_lower_cap_is_prefix SingleWorker false true [] bufA bufR
              bufC scale4 offsets4 targets4 degrees4 4%nat 0.85%float
              1e-10%float 1 0%nat 4%nat countVisit (λ _, true) 3 2
              (start SingleWorker) 3 after3 loop4_three ltac:(lia))
    as (st'' & Hloop & _).
  exists st''. exact Hloop.
Defined.

(** X7 on the 4-cycle, with the previous buffer as both [a] and [r]. *)
Lemma aliased_buffers_stop_after_one_iteration_witness :
  1 ≤ 500 ∧
  aliasedUpdate = Some (aliasedAfter, aliasedError) ∧
  Vltb (pagerankError (bufs aliasedAfter bufR) (bufs aliasedAfter bufR) 1
          0%nat 4%nat) 1e-10%float = true ∧
  pagerankBasicLoop SingleWorker true true [] bufR bufR bufC scale4 offsets4
    targets4 degrees4 4%nat 0.85%float 1e-10%float 500 1 0%nat 4%nat
    countVisit (λ _, true) (start SingleWorker)
  = Some (1, exchange true bufR bufR aliasedAfter).
Proof.
  assert (aliasedUpdate = Some (aliasedAfter, aliasedError)) as Hu
    by (vm_compute; reflexivity).
  assert (Vltb (pagerankError (bufs aliasedAfter bufR)
                  (bufs aliasedAfter bufR) 1 0%nat 4%nat) 1e-10%float
          = true) as Hel by (vm_compute; reflexivity).
  split; [lia|]. split; [exact Hu|]. split; [exact Hel|].
  apply (aliased_buffers_stop_after_one_iteration SingleWorker true true []
           bufR bufC scale4 offsets4 targets4 degrees4 4%nat 0.85%float
           1e-10%float 1 0%nat 4%nat countVisit (λ _, true) 500
           (start SingleWorker) aliasedAfter aliasedError);
    [lia|exact Hu|exact Hel].
Defined.

(** X8 on the 4-cycle: the second of three synchronous iterations. *)
Lemma synchronous_iteration_contents_witness :
  loop4 3 countVisit (start SingleWorker) = Some (3, after3) ∧
  bufA ≠ bufR ∧ bufA ≠ bufC ∧ bufR ≠ bufC ∧ 1 ≤ Z.of_nat 2 ≤ 3 ∧
  ∃ (stp stj : LoopState float ThreadInfo) (a' : list float),
    newRanks SingleWorker true bufA bufR bufC offsets4 targets4 degrees4
      4%nat 0.85%float 0%nat 4%nat countVisit (λ _, true) stp = Some a' ∧
    bufs stj bufR = a' ∧ bufs stj bufA = bufs stp bufR.
Proof.
  assert (bufA ≠ bufR) as HAR by (vm_compute; lia).
  assert (bufA ≠ bufC) as HAC by (vm_compute; lia).
  assert (bufR ≠ bufC) as HRC by (vm_compute; lia).
  assert (1 ≤ Z.of_nat 2 ≤ 3) as Hj by lia.
  split; [exact loop4_three|]. do 4 (split; [done|]).
  destruct (synchronous_iteration_contents SingleWorker true [] bufA bufR
              bufC scale4 offsets4 targets4 degrees4 4%nat 0.85%float
              1e-10%float 1 0%nat 4%nat countVisit (λ _, true) 3
              (start SingleWorker) 3 after3 2%nat loop4_three HAR HAC HRC Hj)
    as (stp & stj & a' & el & _ & _ & Hnew & _ & Hr & Ha & _).
  exists stp, stj, a'. split; [exact Hnew|]. split; [exact Hr|exact Ha].
Defined.

(** X9 on the 4-cycle: a second worker whose failure flag is set. *)
Lemma seq_loop_reads_first_worker_only_witness :
  bufs pairStart = bufs (start SingleWorker) ∧
  threads pairStart !! 0%nat = threads (start SingleWorker) !! 0%nat ∧
  loop4 3 countVisit (start SingleWorker) = Some (3, after3) ∧
  ∃ st2', loop4 3 countVisit pairStart = Some (3, st2').
Proof.
  assert (bufs pairStart = bufs (start SingleWorker)) as Hb by reflexivity.
  assert (threads pairStart !! 0%nat = threads (start SingleWorker) !! 0%nat)
    as Ht by reflexivity.
  split; [exact Hb|]. split; [exact Ht|]. split; [exact loop4_three|].
  destruct (seq_loop_reads_first_worker_only false true [] bufA bufR bufC
              scale4 offsets4 targets4 degrees4 4%nat 0.85%float 1e-10%float
              3 1 0%nat 4%nat countVisit (λ _, true) (start SingleWorker)
              pairStart 3 after3 Hb Ht loop4_three) as (st2' & Hloop & _).
  exists st2'. exact Hloop.
Defined.

(** The multi-worker propagator of the reference instance, on one worker. *)
Lemma calculateRanksOmp_one (va vc : list float) (ov : list nat)
    (oe : list K) (C0 : float) (j m : K) (w : ThreadInfo) (g : Callback)
    (h : K → bool) :
  calculateRanksOmp va vc ov oe C0 j m [w] g h =
  ((calculateRanks va vc ov oe C0 j m w g h).1,
   [(calculateRanks va vc ov oe C0 j m w g h).2]).
Proof.
  unfold calculateRanksOmp, calculateRanks. generalize (seq j m) as vs.
  intros vs. revert va w. induction vs as [|v vs IH]; intros va w; [done|].
  cbn -[Nat.modulo]. destruct (h v); [|apply IH].
  rewrite Nat.mod_1_r. apply IH.
Qed.

(** X10 on the 4-cycle: the services of the reference instance agree on
    one worker. *)
Lemma omp_loop_with_one_worker_witness :
  (∀ vr vd p m, pagerankTeleportOmp vr vd p m = pagerankTeleport vr vd p m) ∧
  (∀ va vc ov oe C0 j m w g h,
     pagerankCalculateRanksOmp va vc ov oe C0 j m [w] g h =
     ((pagerankCalculateRanks va vc ov oe C0 j m w g h).1,
      [(pagerankCalculateRanks va vc ov oe C0 j m w g h).2])) ∧
  (∀ vc va vf j m, multiplyValuesOmpW vc va vf j m = multiplyValuesW vc va vf j m) ∧
  (∀ va vr ef j m, pagerankErrorOmp va vr ef j m = pagerankError va vr ef j m) ∧
  threads (start SingleWorker) = [{| flag := false; visited := 0 |}] ∧
  pagerankBasicOmpLoop false true [] bufA bufR bufC scale4 offsets4 targets4
    degrees4 4%nat 0.85%float 1e-10%float 500 1 0%nat 4%nat countVisit
    (λ _, true) (start SingleWorker)
  = loop4 500 countVisit (start SingleWorker).
Proof.
  assert (threads (start SingleWorker) = [{| flag := false; visited := 0 |}])
    as Ht by reflexivity.
  split; [reflexivity|]. split; [exact calculateRanksOmp_one|].
  split; [reflexivity|]. split; [reflexivity|]. split; [exact Ht|].
  exact (omp_loop_with_one_worker false true [] bufA bufR bufC scale4
           offsets4 targets4 degrees4 4%nat 0.85%float 1e-10%float 500 1
           0%nat 4%nat countVisit (λ _, true) (start SingleWorker)
           {| flag := false; visited := 0 |}
           (λ _ _ _ _, eq_refl) calculateRanksOmp_one
           (λ _ _ _ _ _, eq_refl) (λ _ _ _ _ _, eq_refl) Ht).
Defined.

(** X11 on the 4-cycle: three iterations, then four more. *)
Lemma loop_resumes_at_cap_witness :
  0 ≤ 4 ∧
  loop4 3 countVisit (start SingleWorker) = Some (3, after3) ∧
  errorAt SingleWorker false true bufA bufR bufC scale4 offsets4 targets4
    degrees4 4%nat 0.85%float 1e-10%float 1 0%nat 4%nat countVisit
    (λ _, true) (Z.to_nat 3) (start SingleWorker) = Some error3 ∧
  Vltb error3 1e-10%float = false ∧
  failedAfter SingleWorker false true bufA bufR bufC scale4 offsets4 targets4
    degrees4 4%nat 0.85%float 1e-10%float 1 0%nat 4%nat countVisit
    (λ _, true) (Z.to_nat 3) (start SingleWorker) = Some false ∧
  loop4 (3 + 4) countVisit (start SingleWorker) =
  (λ out, (out.1 + 3, out.2)) <$> loop4 4 countVisit after3.
Proof.
  assert (errorAt SingleWorker false true bufA bufR bufC scale4 offsets4
            targets4 degrees4 4%nat 0.85%float 1e-10%float 1 0%nat 4%nat
            countVisit (λ _, true) (Z.to_nat 3) (start SingleWorker)
          = Some error3) as Hel by (vm_compute; reflexivity).
  assert (Vltb error3 1e-10%float = false) as Hlt
    by (vm_compute; reflexivity).
  assert (failedAfter SingleWorker false true bufA bufR bufC scale4 offsets4
            targets4 degrees4 4%nat 0.85%float 1e-10%float 1 0%nat 4%nat
            countVisit (λ _, true) (Z.to_nat 3) (start SingleWorker)
          = Some false) as Hf by (vm_compute; reflexivity).
  split; [lia|]. split; [exact loop4_three|]. split; [exact Hel|].
  split; [exact Hlt|]. split; [exact Hf|].
  apply (loop_resumes_at_cap SingleWorker false true [] bufA bufR bufC
           scale4 offsets4 targets4 degrees4 4%nat 0.85%float 1e-10%float 1
           0%nat 4%nat countVisit (λ _, true) 3 4 (start SingleWorker)
           after3 error3); [lia|exact loop4_three|exact Hel|exact Hlt|exact Hf].
Defined.

End ReferenceMoreRuns.
